(** * BetterSqlite3Driver: a shallow embedding and its verified properties

    The development follows [src/driver/better-sqlite3/BetterSqlite3Driver.ts].
    Methods of the class are computations in a state-and-exception monad whose
    state is the receiver object ([this]) together with the outside world
    (file system, engine binding, data source), observed through a trace of the
    calls the driver makes on its collaborators. *)

From Stdlib Require Import String Ascii List Bool Arith ZArith NArith Lia Permutation.
Import ListNotations.
Local Open Scope string_scope.

(* ===================================================================== *)
(** ** JavaScript strings *)
(* ===================================================================== *)

Module Js.

(** The double quote character, for template literals that embed it. *)
Definition dquote : ascii := ascii_of_nat 34.
Definition backslash : ascii := ascii_of_nat 92.

Definition str (c : ascii) : string := String c EmptyString.

(** [s.length] *)
Definition len (s : string) : Z := Z.of_nat (String.length s).

(** [s.charCodeAt(i)], [None] standing for [NaN] *)
Definition charCodeAt (s : string) (i : Z) : option ascii :=
  if (i <? 0)%Z then None else String.get (Z.to_nat i) s.

(** [s.slice(a, b)] for [0 <= a], [0 <= b] *)
Definition slice (s : string) (a b : Z) : string :=
  String.substring (Z.to_nat a) (Z.to_nat b - Z.to_nat a) s.

(** [s.lastIndexOf(c)] for a one-character needle; [-1] when absent *)
Fixpoint lastIndexOf_from (s : string) (c : ascii) (i : Z) (found : Z) : Z :=
  match s with
  | EmptyString => found
  | String a s' =>
      lastIndexOf_from s' c (i + 1) (if Ascii.eqb a c then i else found)
  end.

Definition lastIndexOf (s : string) (c : ascii) : Z :=
  lastIndexOf_from s c 0 (-1).

(** Truthiness of a string value that may be [undefined]: the empty string
    and [undefined] are falsy. *)
Definition truthy (v : option string) : bool :=
  match v with
  | Some s => negb (String.eqb s "")
  | None => false
  end.

Definition hexdigit (n : nat) : ascii :=
  match n with
  | 0 => "0" | 1 => "1" | 2 => "2" | 3 => "3" | 4 => "4" | 5 => "5"
  | 6 => "6" | 7 => "7" | 8 => "8" | 9 => "9" | 10 => "a" | 11 => "b"
  | 12 => "c" | 13 => "d" | 14 => "e" | _ => "f"
  end%char.

(** [JSON.stringify] on a string: the QuoteJSONString operation on the
    characters below 128 (the others are copied). *)
Definition quoteChar (c : ascii) : string :=
  let n := nat_of_ascii c in
  if Ascii.eqb c dquote then String backslash (str dquote)
  else if Ascii.eqb c backslash then String backslash (str backslash)
  else if Nat.eqb n 8 then String backslash "b"
  else if Nat.eqb n 9 then String backslash "t"
  else if Nat.eqb n 10 then String backslash "n"
  else if Nat.eqb n 12 then String backslash "f"
  else if Nat.eqb n 13 then String backslash "r"
  else if Nat.ltb n 32 then
    String backslash ("u00" ++ String (hexdigit (n / 16)) (str (hexdigit (n mod 16))))
  else str c.

Fixpoint quoteChars (s : string) : string :=
  match s with
  | EmptyString => EmptyString
  | String c s' => quoteChar c ++ quoteChars s'
  end.

Definition JSON_stringify (s : string) : string :=
  String dquote (quoteChars s ++ str dquote).

End Js.

(* ===================================================================== *)
(** ** Errors and results *)
(* ===================================================================== *)

(** What a call can throw.  [TypeError] is raised by the JavaScript runtime
    and by Node's argument validation; [DriverPackageNotInstalledError] is the
    one error class the driver constructs itself; [Thrown name] is an error
    object of class [name] raised by a collaborator (file system, engine
    binding, customization hook, data source). *)
Inductive Error : Type :=
| TypeError (message : string)
| DriverPackageNotInstalledError (driverName packageName : string)
| Thrown (name : string).

(** The error the specification calls [InvalidConnection]. *)
Definition InvalidConnection : Error := Thrown "InvalidConnection".

Inductive Result (A : Type) : Type :=
| Ok (a : A)
| Throw (e : Error).
Arguments Ok {A} a.
Arguments Throw {A} e.

Definition is_ok {A} (r : Result A) : bool :=
  match r with Ok _ => true | Throw _ => false end.

(* ===================================================================== *)
(** ** Node's [path] module (POSIX flavour) *)
(* ===================================================================== *)

Module path.
Import Js.
Local Open Scope Z_scope.

Definition isPosixPathSeparator (code : ascii) : bool := Ascii.eqb code "/".

(** Loop state of [normalizeString]. *)
Record NS := mkNS {
  res : string;
  lastSegmentLength : Z;
  lastSlash : Z;
  dots : Z
}.

Definition is_dot (o : option ascii) : bool :=
  match o with Some c => Ascii.eqb c "." | None => false end.

(** One turn of the [for] loop of [normalizeString] at index [i], once
    [code] has been read. *)
Definition normalizeString_step (p : string) (allowAboveRoot : bool)
    (i : Z) (code : ascii) (st : NS) : NS :=
  if isPosixPathSeparator code then
    if (lastSlash st =? i - 1) || (dots st =? 1) then
      mkNS (res st) (lastSegmentLength st) i 0
    else if dots st =? 2 then
      let above :=
        if allowAboveRoot then
          mkNS (append (res st) (if 0 <? len (res st) then "/.." else "..")) 2 i 0
        else mkNS (res st) (lastSegmentLength st) i 0 in
      if (len (res st) <? 2) || negb (lastSegmentLength st =? 2)
         || negb (is_dot (charCodeAt (res st) (len (res st) - 1)))
         || negb (is_dot (charCodeAt (res st) (len (res st) - 2))) then
        if 2 <? len (res st) then
          let lastSlashIndex := lastIndexOf (res st) "/" in
          if lastSlashIndex =? -1 then mkNS "" 0 i 0
          else
            let r := slice (res st) 0 lastSlashIndex in
            mkNS r (len r - 1 - lastIndexOf r "/") i 0
        else if negb (len (res st) =? 0) then mkNS "" 0 i 0
        else above
      else above
    else
      let seg := slice p (lastSlash st + 1) i in
      mkNS (if 0 <? len (res st) then append (res st) (String "/" seg) else seg)
           (i - lastSlash st - 1) i 0
  else if Ascii.eqb code "." && negb (dots st =? -1) then
    mkNS (res st) (lastSegmentLength st) (lastSlash st) (dots st + 1)
  else
    mkNS (res st) (lastSegmentLength st) (lastSlash st) (-1).

(** The loop over [0 <= i < path.length]; [rest] is what is left to read and
    [code] the character read last. *)
Fixpoint normalizeString_loop (p : string) (allowAboveRoot : bool)
    (rest : string) (i : Z) (code : ascii) (st : NS) : NS * ascii :=
  match rest with
  | EmptyString => (st, code)
  | String c rest' =>
      normalizeString_loop p allowAboveRoot rest' (i + 1) c
        (normalizeString_step p allowAboveRoot i c st)
  end.

Definition normalizeString (p : string) (allowAboveRoot : bool) : string :=
  let '(st, code) :=
    normalizeString_loop p allowAboveRoot p 0 zero (mkNS "" 0 (-1) 0) in
  (* the turn at [i = path.length] *)
  if isPosixPathSeparator code then res st
  else res (normalizeString_step p allowAboveRoot (len p) "/" st).

Definition is_sep (o : option ascii) : bool :=
  match o with Some c => isPosixPathSeparator c | None => false end.

(** [path.posix.normalize] *)
Definition normalize (p : string) : string :=
  if len p =? 0 then "."
  else
    let isAbsolute := is_sep (charCodeAt p 0) in
    let trailingSeparator := is_sep (charCodeAt p (len p - 1)) in
    let q := normalizeString p (negb isAbsolute) in
    if len q =? 0 then
      if isAbsolute then "/" else if trailingSeparator then "./" else "."
    else
      let q := if trailingSeparator then append q "/" else q in
      if isAbsolute then String "/" q else q.

(** What [validateString(arg, 'path')] throws on [undefined]. *)
Definition ERR_INVALID_ARG_TYPE : Error :=
  TypeError (append "The " (String dquote (append "path" (String dquote
    " argument must be of type string. Received undefined")))).

(** The loop of [path.posix.join]; an argument that is [undefined] is
    [None]. *)
Fixpoint join_loop (args : list (option string)) (joined : option string)
    : Result (option string) :=
  match args with
  | [] => Ok joined
  | None :: _ => Throw ERR_INVALID_ARG_TYPE
  | Some arg :: rest =>
      join_loop rest
        (if 0 <? len arg then
           match joined with
           | None => Some arg
           | Some j => Some (append j (String "/" arg))
           end
         else joined)
  end.

(** [path.posix.join(...args)] *)
Definition join (args : list (option string)) : Result string :=
  match args with
  | [] => Ok "."
  | _ =>
      match join_loop args None with
      | Throw e => Throw e
      | Ok None => Ok "."
      | Ok (Some joined) => Ok (normalize joined)
      end
  end.

(** The loop of [path.posix.dirname], from [i] down to [1]; the result is
    [end], [-1] when no separator was found. *)
Fixpoint dirname_loop (p : string) (i : nat) (matchedSlash : bool) : Z :=
  match i with
  | O => -1
  | S i' =>
      if is_sep (charCodeAt p (Z.of_nat i)) then
        if negb matchedSlash then Z.of_nat i
        else dirname_loop p i' matchedSlash
      else dirname_loop p i' false
  end.

(** [path.posix.dirname(path)] *)
Definition dirname (p : string) : string :=
  if len p =? 0 then "."
  else
    let hasRoot := is_sep (charCodeAt p 0) in
    let e := dirname_loop p (String.length p - 1) true in
    if e =? -1 then (if hasRoot then "/" else ".")
    else if hasRoot && (e =? 1) then "//"
    else slice p 0 e.

End path.

(* ===================================================================== *)
(** ** Plain objects used as dictionaries *)
(* ===================================================================== *)

Module JsObject.

(** The own string-keyed properties of an object, in creation order. *)
Definition t (V : Type) : Type := list (string * V).

Definition empty {V} : t V := [].

(** [o[k]], [None] for [undefined] *)
Fixpoint get {V} (o : t V) (k : string) : option V :=
  match o with
  | [] => None
  | (k', v) :: o' => if String.eqb k k' then Some v else get o' k
  end.

(** [o[k] = v]: an existing property keeps its place, a new one goes last *)
Fixpoint set {V} (o : t V) (k : string) (v : V) : t V :=
  match o with
  | [] => [(k, v)]
  | (k', v') :: o' =>
      if String.eqb k k' then (k', v) :: o' else (k', v') :: set o' k v
  end.

Definition digit (c : ascii) : option N :=
  let n := N_of_ascii c in
  if (48 <=? n)%N && (n <=? 57)%N then Some (n - 48)%N else None.

Fixpoint parse_digits (s : string) (acc : N) : option N :=
  match s with
  | EmptyString => Some acc
  | String c s' =>
      match digit c with
      | Some d => parse_digits s' (10 * acc + d)%N
      | None => None
      end
  end.

(** A property key is an array index when it is the canonical decimal form
    of an integer below [2^32 - 1]. *)
Definition array_index (k : string) : option N :=
  match k with
  | EmptyString => None
  | String c rest =>
      if Ascii.eqb c "0" then
        match rest with EmptyString => Some 0%N | _ => None end
      else
        match parse_digits k 0 with
        | Some n => if (n <? 4294967295)%N then Some n else None
        | None => None
        end
  end.

(** The properties whose key is an array index, with that index, and the
    others. *)
Fixpoint indexed {V} (o : t V) : list (N * V) :=
  match o with
  | [] => []
  | (k, v) :: o' =>
      match array_index k with
      | Some n => (n, v) :: indexed o'
      | None => indexed o'
      end
  end.

Fixpoint named {V} (o : t V) : list V :=
  match o with
  | [] => []
  | (k, v) :: o' =>
      match array_index k with
      | Some _ => named o'
      | None => v :: named o'
      end
  end.

Fixpoint insert_sorted {V} (x : N * V) (l : list (N * V)) : list (N * V) :=
  match l with
  | [] => [x]
  | y :: l' => if (fst x <=? fst y)%N then x :: l else y :: insert_sorted x l'
  end.

Fixpoint sort_by_index {V} (l : list (N * V)) : list (N * V) :=
  match l with
  | [] => []
  | x :: l' => insert_sorted x (sort_by_index l')
  end.

(** [Object.values(o)]: array-index keys in ascending order, then the other
    keys in creation order. *)
Definition values {V} (o : t V) : list V :=
  map snd (sort_by_index (indexed o)) ++ named o.

End JsObject.

(* ===================================================================== *)
(** ** Data model *)
(* ===================================================================== *)

(** The engine binding ([this.sqlite]): the override given in the options, or
    the package that was loaded. *)
Inductive Binding : Type :=
| DriverOverride (id : nat)
| Package (name : string).

(** A physical connection handle returned by the binding. *)
Definition Handle : Type := nat.

(** The [prepareDatabase] and [verbose] callbacks, by identity. *)
Definition Callback : Type := nat.

Record BetterSqlite3ConnectionOptions : Type := mkOptions {
  opt_database : string;
  opt_driver : option Binding;
  opt_key : option string;
  opt_prepareDatabase : option Callback;
  opt_readonly : option bool;
  opt_fileMustExist : option bool;
  opt_timeout : option Z;
  opt_verbose : option Callback;
  opt_nativeBinding : option string;
  opt_enableWAL : option bool;
  opt_baseDirectory : option string
}.

Record DataSource : Type := mkDataSource {
  ds_options : BetterSqlite3ConnectionOptions
}.

(** The second argument of [this.sqlite(database, {...})]. *)
Record OpenOptions : Type := mkOpenOptions {
  readonly : bool;
  fileMustExist : bool;
  timeout : Z;
  verbose : option Callback;
  nativeBinding : option string
}.

Record AttachedDatabase : Type := mkAttached {
  attachFilepathAbsolute : string;
  attachFilepathRelative : string;
  attachHandle : string
}.

Inductive QueryRunner : Type :=
| BetterSqlite3QueryRunner (object_id : nat).

Inductive ReplicationMode : Type := master | slave.

(** The object itself.  [databaseConnection], [queryRunner] and
    [attachedDatabases] are declared by [AbstractSqliteDriver]; a field that
    is [undefined] is [None]. *)
Record Driver : Type := mkDriver {
  connection : DataSource;
  options : BetterSqlite3ConnectionOptions;
  database : string;
  sqlite : option Binding;
  databaseConnection : option Handle;
  queryRunner : option QueryRunner;
  attachedDatabases : JsObject.t AttachedDatabase
}.

(** Calls the driver makes on its collaborators, as a test double would
    record them. *)
Inductive Event : Type :=
| require_package (name : string)
| fs_mkdir_recursive (dir : string)
| sqlite_open (binding : Binding) (database : string) (o : OpenOptions)
| db_exec (h : Handle) (sql : string)
| prepareDatabase_call (f : Callback) (h : Handle)
| connection_query (sql : string)
| db_close (h : Handle).

(** The world outside the driver: the calls made so far, the handles that are
    open, and the counters for fresh handles and fresh objects. *)
Record World : Type := mkWorld {
  trace : list Event;
  openHandles : list Handle;
  nextHandle : Handle;
  nextObject : nat
}.

Definition initial_world : World := mkWorld [] [] 0 0.

Record State : Type := mkState {
  this : Driver;
  world : World
}.

Definition with_this (f : Driver -> Driver) (s : State) : State :=
  mkState (f (this s)) (world s).

Definition set_sqlite (b : option Binding) (d : Driver) : Driver :=
  mkDriver (connection d) (options d) (database d) b
           (databaseConnection d) (queryRunner d) (attachedDatabases d).

Definition set_databaseConnection (h : option Handle) (d : Driver) : Driver :=
  mkDriver (connection d) (options d) (database d) (sqlite d)
           h (queryRunner d) (attachedDatabases d).

Definition set_queryRunner (q : option QueryRunner) (d : Driver) : Driver :=
  mkDriver (connection d) (options d) (database d) (sqlite d)
           (databaseConnection d) q (attachedDatabases d).

Definition set_attachedDatabases (r : JsObject.t AttachedDatabase) (d : Driver)
    : Driver :=
  mkDriver (connection d) (options d) (database d) (sqlite d)
           (databaseConnection d) (queryRunner d) r.

(* ===================================================================== *)
(** ** The monad of methods *)
(* ===================================================================== *)

(** A method runs on a state and ends normally or by throwing; what it did to
    the state before throwing stays done. *)
Definition M (A : Type) : Type := State -> Result A * State.

Definition ret {A} (a : A) : M A := fun s => (Ok a, s).

Definition throw {A} (e : Error) : M A := fun s => (Throw e, s).

Definition bind {A B} (m : M A) (k : A -> M B) : M B :=
  fun s =>
    match m s with
    | (Ok a, s') => k a s'
    | (Throw e, s') => (Throw e, s')
    end.

Notation "x <- m ;; k" := (bind m (fun x => k))
  (at level 61, m at next level, right associativity).
Notation "m ;; k" := (bind m (fun _ => k))
  (at level 61, right associativity).

(** [try { m } catch (e) { handler e }] *)
Definition try_catch {A} (m : M A) (handler : Error -> M A) : M A :=
  fun s =>
    match m s with
    | (Ok a, s') => (Ok a, s')
    | (Throw e, s') => handler e s'
    end.

Definition read {A} (f : Driver -> A) : M A := fun s => (Ok (f (this s)), s).

Definition assign (f : Driver -> Driver) : M unit :=
  fun s => (Ok tt, with_this f s).

Definition lift {A} (r : Result A) : M A := fun s => (r, s).

(** [for (const x of xs) { await body x }] *)
Fixpoint for_of {A} (xs : list A) (body : A -> M unit) : M unit :=
  match xs with
  | [] => ret tt
  | x :: xs' => body x ;; for_of xs' body
  end.

(* ===================================================================== *)
(** ** Collaborators used in examples *)
(* ===================================================================== *)

(** Collaborators that never throw. *)
Definition env_ok : list Event -> Event -> option Error := fun _ _ => None.

Definition is_letter (c : ascii) : bool :=
  let n := nat_of_ascii c in
  (Nat.leb 65 n && Nat.leb n 90) || (Nat.leb 97 n && Nat.leb n 122).

(** Collaborators whose engine rejects the pragma that turns foreign keys
    on. *)
Definition env_foreign_keys_fail : list Event -> Event -> option Error :=
  fun _ ev =>
    match ev with
    | db_exec _ sql =>
        if String.eqb sql "PRAGMA foreign_keys = ON"
        then Some (Thrown "SqliteError")
        else None
    | _ => None
    end.


(** Modelled from the spec: [isAbsolute] of [util/PathUtils] is not part of the
    sources at hand; a path is absolute when it starts with a forward slash, a
    backslash or a drive letter and a colon. *)
Definition isAbsolute_model (p : string) : bool :=
  match p with
  | EmptyString => false
  | String c rest =>
      Ascii.eqb c "/" || Ascii.eqb c Js.backslash
      || (is_letter c
          && match rest with
             | String c' _ => Ascii.eqb c' ":"
             | EmptyString => false
             end)
  end.

(** A stand-in for [filepathToName] in examples: a content hash of the
    reference, in hexadecimal. *)
Fixpoint hash_chars (p : string) (acc : N) : N :=
  match p with
  | EmptyString => acc
  | String c rest =>
      hash_chars rest ((acc * 31 + N_of_ascii c) mod 4294967296)%N
  end.

Fixpoint hex (digits : nat) (n : N) : string :=
  match digits with
  | O => EmptyString
  | S d => hex d (n / 16)%N ++ Js.str (Js.hexdigit (N.to_nat (n mod 16)%N))
  end.

Definition filepathToName_example (p : string) : string :=
  "db" ++ hex 8 (hash_chars p 0).

(** The options of the examples: a primary database and nothing else, with
    the binding given as an override. *)
Definition example_options (db : string) : BetterSqlite3ConnectionOptions :=
  mkOptions db (Some (DriverOverride 0)) None None None None None None None
            None None.

Definition example_connection (db : string) : DataSource :=
  mkDataSource (example_options db).

(** The driver the constructor makes from these options, in a world where
    nothing has happened yet. *)
Definition example_driver (db : string) : Driver :=
  mkDriver (example_connection db) (example_options db) db
           (Some (DriverOverride 0)) None None JsObject.empty.

Definition example_state (db : string) : State :=
  mkState (example_driver db) initial_world.

(** Options with an encryption key, a [prepareDatabase] hook and write-ahead
    logging, and the state of the driver the constructor makes from them. *)
Definition example_options_full (db : string) : BetterSqlite3ConnectionOptions :=
  mkOptions db (Some (DriverOverride 0)) (Some "secret") (Some 7) None None
            None None None (Some true) None.

Definition example_state_full (db : string) : State :=
  mkState
    (mkDriver (mkDataSource (example_options_full db))
              (example_options_full db) db
              (Some (DriverOverride 0)) None None JsObject.empty)
    initial_world.






(** The same with a [baseDirectory]. *)
Definition example_options_in (base db : string)
    : BetterSqlite3ConnectionOptions :=
  mkOptions db (Some (DriverOverride 0)) None None None None None None None
            None (Some base).

Definition example_state_in (base db : string) : State :=
  mkState
    (mkDriver (mkDataSource (example_options_in base db))
              (example_options_in base db) db
              (Some (DriverOverride 0)) None None JsObject.empty)
    initial_world.

(* ===================================================================== *)
(** ** The driver *)
(* ===================================================================== *)

Section BetterSqlite3Driver.

(** How the collaborators answer: given the calls made so far and the call
    being made, [None] when it returns normally and [Some e] when it throws
    [e].  Every file system, engine, hook and data source behaviour that can
    be told from the calls is one such function. *)
Variable env : list Event -> Event -> option Error.

(** [filepathToName] and [isAbsolute] of [util/PathUtils], which is not part
    of the sources at hand: pure functions on strings. *)
Variable filepathToName : string -> string.
Variable isAbsolute : string -> bool.

(** *** Calls on collaborators *)

Definition log (ev : Event) (w : World) : World :=
  mkWorld (trace w ++ [ev]) (openHandles w) (nextHandle w) (nextObject w).

(** Make the call [ev]: it is recorded, then it returns or throws. *)
Definition perform (ev : Event) : M unit :=
  fun s =>
    let s' := mkState (this s) (log ev (world s)) in
    match env (trace (world s)) ev with
    | None => (Ok tt, s')
    | Some e => (Throw e, s')
    end.

(** What the binding does to its handles: the handle a successful open
    returns is fresh and open, and a close that returns leaves the handle
    closed.  The [prepareDatabase] hook is taken to leave the handle open. *)
Definition fresh_handle : M Handle :=
  fun s =>
    let w := world s in
    (Ok (nextHandle w),
     mkState (this s)
       (mkWorld (trace w) (nextHandle w :: openHandles w)
                (S (nextHandle w)) (nextObject w))).

Definition mark_closed (h : Handle) : M unit :=
  fun s =>
    let w := world s in
    (Ok tt,
     mkState (this s)
       (mkWorld (trace w) (remove Nat.eq_dec h (openHandles w))
                (nextHandle w) (nextObject w))).

Definition fresh_object : M nat :=
  fun s =>
    let w := world s in
    (Ok (nextObject w),
     mkState (this s)
       (mkWorld (trace w) (openHandles w) (nextHandle w) (S (nextObject w)))).

(** [this.sqlite(database, o)] *)
Definition call_sqlite (db : string) (o : OpenOptions) : M Handle :=
  b <- read sqlite ;;
  match b with
  | None => throw (TypeError "this.sqlite is not a function")
  | Some b => perform (sqlite_open b db o) ;; fresh_handle
  end.

(** [databaseConnection.exec(sql)] *)
Definition exec (h : Handle) (sql : string) : M unit :=
  perform (db_exec h sql).

(** [databaseConnection.close()] on a handle *)
Definition close (h : Handle) : M unit :=
  perform (db_close h) ;; mark_closed h.

(** Modelled from the spec: [PlatformTools.load] is not part of the sources
    at hand; it loads a named runtime dependency and fails when the binding
    cannot be located or loaded. *)
Definition PlatformTools_load (name : string) : M Binding :=
  perform (require_package name) ;; ret (Package name).

(** *** Protected methods *)

(** [loadDependencies] (lines 176-184) *)
Definition loadDependencies : M unit :=
  try_catch
    (o <- read options ;;
     b <- match opt_driver o with
          | Some b => ret b
          | None => PlatformTools_load "better-sqlite3"
          end ;;
     assign (set_sqlite (Some b)))
    (fun _ => throw (DriverPackageNotInstalledError "SQLite" "better-sqlite3")).

(** [createDatabaseDirectory] (lines 189-191) *)
Definition createDatabaseDirectory (dbPath : string) : M unit :=
  perform (fs_mkdir_recursive dbPath).

(** [getMainDatabasePath] (lines 213-220) *)
Definition getMainDatabasePath : M string :=
  o <- read options ;;
  let optionsDb := opt_database o in
  p <- (if isAbsolute optionsDb then ret optionsDb
        else lift (path.join [opt_baseDirectory o; Some optionsDb])) ;;
  ret (path.dirname p).

(** Modelled from the spec: [getAttachedDatabaseHandleByRelativePath] is a
    method of [AbstractSqliteDriver], which is not part of the sources at
    hand; it gives the handle of the registry entry of a reference, if the
    reference has one. *)
Definition getAttachedDatabaseHandleByRelativePath (p : string)
    : M (option string) :=
  r <- read attachedDatabases ;;
  ret (option_map attachHandle (JsObject.get r p)).

Definition ATTACH_statement (e : AttachedDatabase) : string :=
  "ATTACH " ++ Js.str Js.dquote ++ attachFilepathAbsolute e ++ Js.str Js.dquote
  ++ " AS " ++ Js.str Js.dquote ++ attachHandle e ++ Js.str Js.dquote.

(** The body of the loop of [attachDatabases] (lines 204-209) *)
Definition attach_one (e : AttachedDatabase) : M unit :=
  createDatabaseDirectory (path.dirname (attachFilepathAbsolute e)) ;;
  perform (connection_query (ATTACH_statement e)).

(** [attachDatabases] (lines 199-211) *)
Definition attachDatabases : M unit :=
  r <- read attachedDatabases ;;
  for_of (JsObject.values r) attach_one.

Definition default {A} (d : A) (o : option A) : A :=
  match o with Some a => a | None => d end.

Definition when (b : bool) (m : M unit) : M unit :=
  if b then m else ret tt.

(** [createDatabaseConnection] (lines 125-171) *)
Definition createDatabaseConnection : M Handle :=
  o <- read options ;;
  when (negb (String.eqb (opt_database o) ":memory:"))
    (createDatabaseDirectory (path.dirname (opt_database o))) ;;
  o <- read options ;;
  let prepareDatabase := opt_prepareDatabase o in
  databaseConnection <-
    call_sqlite (opt_database o)
      (mkOpenOptions (default false (opt_readonly o))
                     (default false (opt_fileMustExist o))
                     (default 5000%Z (opt_timeout o))
                     (opt_verbose o)
                     (opt_nativeBinding o)) ;;
  o <- read options ;;
  when (Js.truthy (opt_key o))
    (exec databaseConnection
       ("PRAGMA key = " ++ Js.JSON_stringify (default "" (opt_key o)))) ;;
  match prepareDatabase with
  | Some f => perform (prepareDatabase_call f databaseConnection)
  | None => ret tt
  end ;;
  exec databaseConnection "PRAGMA foreign_keys = ON" ;;
  o <- read options ;;
  when (default false (opt_enableWAL o))
    (exec databaseConnection "PRAGMA journal_mode = WAL") ;;
  ret databaseConnection.

(** *** Public methods *)

(** [disconnect] (lines 54-57) *)
Definition disconnect : M unit :=
  assign (set_queryRunner None) ;;
  c <- read databaseConnection ;;
  match c with
  | None =>
      throw (TypeError "Cannot read properties of undefined (reading 'close')")
  | Some h => close h
  end.

(** [createQueryRunner] (lines 62-67) *)
Definition createQueryRunner (mode : ReplicationMode) : M QueryRunner :=
  q <- read queryRunner ;;
  match q with
  | Some q => ret q
  | None =>
      id <- fresh_object ;;
      assign (set_queryRunner (Some (BetterSqlite3QueryRunner id))) ;;
      ret (BetterSqlite3QueryRunner id)
  end.

(** [afterConnect] (lines 82-84) *)
Definition afterConnect : M unit := attachDatabases.

(** [`${h}`] for a value that may be [undefined] *)
Definition template (v : option string) : string :=
  match v with Some s => s | None => "undefined" end.

(** [buildTableName] (lines 89-116); an argument that is left out is
    [None]. *)
Definition buildTableName (tableName : string) (_schema : option string)
    (database : option string) : M string :=
  if negb (Js.truthy database) then ret tableName
  else
    let database := default "" database in
    h <- getAttachedDatabaseHandleByRelativePath database ;;
    if Js.truthy h then
      h <- getAttachedDatabaseHandleByRelativePath database ;;
      ret (template h ++ "." ++ tableName)
    else
      o <- read options ;;
      if String.eqb database (opt_database o) then ret tableName
      else
        let identifierHash := filepathToName database in
        absFilepath <-
          (if isAbsolute database then ret database
           else
             main <- getMainDatabasePath ;;
             lift (path.join [Some main; Some database])) ;;
        r <- read attachedDatabases ;;
        assign (set_attachedDatabases
                  (JsObject.set r database
                     (mkAttached absFilepath database identifierHash))) ;;
        ret (identifierHash ++ "." ++ tableName).

(** *** Construction and connection *)

(** The constructor (lines 36-45).  The fields [AbstractSqliteDriver]
    declares start out empty. *)
Definition constructor (conn : DataSource) (w : World)
    : Result Driver * World :=
  let this0 :=
    mkDriver conn (ds_options conn) (opt_database (ds_options conn))
             None None None JsObject.empty in
  match loadDependencies (mkState this0 w) with
  | (Ok _, s) => (Ok (this s), world s)
  | (Throw e, s) => (Throw e, world s)
  end.

(** Modelled from the spec: [connect] is a method of [AbstractSqliteDriver],
    which is not part of the sources at hand; it acquires the physical
    connection handle with [createDatabaseConnection] and the driver holds
    the handle once that has succeeded. *)
Definition connect : M unit :=
  h <- createDatabaseConnection ;;
  assign (set_databaseConnection (Some h)).

(** Modelled from the spec: the Connection Bootstrapper of section 4.5 lives
    in the data source, which is not part of the sources at hand; physical
    connect must fully succeed before attachment begins. *)
Definition initialize : M unit :=
  connect ;; afterConnect.

(** *** Sequences of calls on one driver *)

Inductive Call : Type :=
| Call_connect
| Call_afterConnect
| Call_disconnect
| Call_createQueryRunner (mode : ReplicationMode)
| Call_buildTableName (tableName : string) (_schema database : option string).

Definition forget {A} (m : M A) : M unit := _ <- m ;; ret tt.

Definition method (c : Call) : M unit :=
  match c with
  | Call_connect => connect
  | Call_afterConnect => afterConnect
  | Call_disconnect => disconnect
  | Call_createQueryRunner mode => forget (createQueryRunner mode)
  | Call_buildTableName t sc db => forget (buildTableName t sc db)
  end.

(** The state after the calls [cs], whether they threw or not. *)
Fixpoint run (cs : list Call) (s : State) : State :=
  match cs with
  | [] => s
  | c :: cs' => run cs' (snd (method c s))
  end.

(** The calls [cs] with their outcome: [true] for a normal return. *)
Fixpoint outcomes (cs : list Call) (s : State) : list (Call * bool) :=
  match cs with
  | [] => []
  | c :: cs' =>
      (c, is_ok (fst (method c s))) :: outcomes cs' (snd (method c s))
  end.

(** A state is reachable when a constructed driver gets there by calls. *)
Definition reachable (s : State) : Prop :=
  exists conn w d w' cs,
    constructor conn w = (Ok d, w') /\ s = run cs (mkState d w').

(** *** What the calls of a connect are, when everything goes well *)

(** The calls of [createDatabaseConnection] for a driver whose binding is
    [b], when the handle it gets is [h]. *)
Definition connection_calls (d : Driver) (b : Binding) (h : Handle)
    : list Event :=
  let o := options d in
  (if String.eqb (opt_database o) ":memory:" then []
   else [fs_mkdir_recursive (path.dirname (opt_database o))])
  ++ [sqlite_open b (opt_database o)
        (mkOpenOptions (default false (opt_readonly o))
                       (default false (opt_fileMustExist o))
                       (default 5000%Z (opt_timeout o))
                       (opt_verbose o) (opt_nativeBinding o))]
  ++ (if Js.truthy (opt_key o)
      then [db_exec h ("PRAGMA key = "
                         ++ Js.JSON_stringify (default "" (opt_key o)))]
      else [])
  ++ (match opt_prepareDatabase o with
      | Some f => [prepareDatabase_call f h]
      | None => []
      end)
  ++ [db_exec h "PRAGMA foreign_keys = ON"]
  ++ (if default false (opt_enableWAL o)
      then [db_exec h "PRAGMA journal_mode = WAL"]
      else []).

(** The calls of the attachment step for one entry and for a list of
    entries. *)
Definition attach_calls (e : AttachedDatabase) : list Event :=
  [fs_mkdir_recursive (path.dirname (attachFilepathAbsolute e));
   connection_query (ATTACH_statement e)].

Definition attachment_calls (es : list AttachedDatabase) : list Event :=
  flat_map attach_calls es.

(** [done] is an initial segment of [all]. *)
Definition initial_segment {A} (done all : list A) : Prop :=
  exists rest, all = (done ++ rest)%list.

(** *** The state of the connection, told from the calls made *)

(** Whether the driver holds a handle that is open. *)
Definition holds_open_handle (s : State) : bool :=
  match databaseConnection (this s) with
  | Some h => existsb (Nat.eqb h) (openHandles (world s))
  | None => false
  end.

(** Whether, in a history of calls, the last of the successful connects and
    disconnects is a connect. *)
Fixpoint connected_after (history : list (Call * bool)) (now : bool) : bool :=
  match history with
  | [] => now
  | (Call_connect, true) :: history' => connected_after history' true
  | (Call_disconnect, true) :: history' => connected_after history' false
  | _ :: history' => connected_after history' now
  end.

(** Whether a connect has succeeded in a history of calls. *)
Fixpoint ever_connected (history : list (Call * bool)) : bool :=
  match history with
  | [] => false
  | (Call_connect, true) :: _ => true
  | _ :: history' => ever_connected history'
  end.

(** *** Path resolution, as a function of the options *)

(** What [getMainDatabasePath] computes. *)
Definition mainDatabasePath (o : BetterSqlite3ConnectionOptions)
    : Result string :=
  if isAbsolute (opt_database o) then Ok (path.dirname (opt_database o))
  else
    match path.join [opt_baseDirectory o; Some (opt_database o)] with
    | Ok p => Ok (path.dirname p)
    | Throw e => Throw e
    end.

(** The absolute path [buildTableName] computes for a reference. *)
Definition resolve (o : BetterSqlite3ConnectionOptions) (r : string)
    : Result string :=
  if isAbsolute r then Ok r
  else
    match mainDatabasePath o with
    | Ok main => path.join [Some main; Some r]
    | Throw e => Throw e
    end.

(** How far the attachment step got on the entries [es] when it made the
    calls [done]: the entries [es1] were attached, and either nothing else
    was called, or the directory of the next entry was being created when
    the step failed. *)
Definition attach_progress (es : list AttachedDatabase) (done : list Event)
    (ok : bool) : Prop :=
  exists es1 es2,
    es = (es1 ++ es2)%list
    /\ ((done = attachment_calls es1 /\ (ok = true -> es2 = []))
        \/ (ok = false
            /\ exists e es3,
                 es2 = e :: es3
                 /\ done =
                      (attachment_calls es1
                       ++ [fs_mkdir_recursive
                             (path.dirname (attachFilepathAbsolute e))])%list)).

(** *** What holds of every reachable state *)

(** The binding is there, the handle the driver holds was given out by the
    binding, the string [options.database] is no registry key, and every registry
    entry is the one [buildTableName] computes for its key. *)
Definition well_formed (s : State) : Prop :=
  (exists b, sqlite (this s) = Some b)
  /\ (forall h, databaseConnection (this s) = Some h ->
                h < nextHandle (world s))
  /\ JsObject.get (attachedDatabases (this s))
       (opt_database (options (this s))) = None
  /\ (forall k e,
        JsObject.get (attachedDatabases (this s)) k = Some e ->
        k <> ""
        /\ resolve (options (this s)) k = Ok (attachFilepathAbsolute e)
        /\ attachFilepathRelative e = k
        /\ attachHandle e = filepathToName k).

(** *** Type normalization *)

(** The [type] of a column description: the [Buffer] constructor or another
    value, told by a name. *)
Inductive ColumnType : Type :=
| Buffer
| OtherType (name : string).

Record ColumnDescription : Type := mkColumn {
  col_type : option ColumnType;
  col_length : option string;
  col_precision : option Z;
  col_scale : option Z
}.

(** [normalizeType] (lines 69-80); [super_normalizeType] is the method of
    [AbstractSqliteDriver] it falls back on, a parameter here. *)
Definition normalizeType (super_normalizeType : ColumnDescription -> string)
    (column : ColumnDescription) : string :=
  match col_type column with
  | Some Buffer => "blob"
  | _ => super_normalizeType column
  end.

(** *** Further notions used in the properties *)

(** No [disconnect] among the calls. *)
Definition no_disconnect (cs : list Call) : bool :=
  forallb (fun c => match c with Call_disconnect => false | _ => true end) cs.

(** The query runner the driver caches is an object that was allocated. *)
Definition runner_allocated (s : State) : Prop :=
  forall id,
    queryRunner (this s) = Some (BetterSqlite3QueryRunner id) ->
    id < nextObject (world s).

(** A POSIX absolute path: it starts with a forward slash. *)
Definition starts_with_slash (p : string) : bool :=
  match p with
  | String c _ => Ascii.eqb c "/"
  | EmptyString => false
  end.

(** The handles open after a call of [createDatabaseConnection] that failed
    on the call [ev], when [h] is the handle an open gives and [opened] the
    handles open before: the handle is there once the open itself has
    returned. *)
Definition handles_after_failure (ev : Event) (h : Handle)
    (opened : list Handle) : list Handle :=
  match ev with
  | fs_mkdir_recursive _ | sqlite_open _ _ _ => opened
  | _ => h :: opened
  end.

(* =================================================================== *)
(** ** Properties *)
(* =================================================================== *)

Local Open Scope list_scope.
Local Arguments path.join : simpl never.
Local Arguments path.dirname : simpl never.
Local Arguments Js.JSON_stringify : simpl never.
Local Arguments String.eqb : simpl never.
Local Arguments default : simpl never.
Local Arguments Js.truthy : simpl never.

(** *** The library models on the examples of their documentation *)

Example join_documented :
  path.join [Some "/foo"; Some "bar"; Some "baz/asdf"; Some "quux"; Some ".."]
    = Ok "/foo/bar/baz/asdf".
Proof. reflexivity. Qed.

Example normalize_documented :
  path.normalize "/foo/bar//baz/asdf/quux/.." = "/foo/bar/baz/asdf".
Proof. reflexivity. Qed.

Example dirname_documented :
  path.dirname "/foo/bar/baz/asdf/quux" = "/foo/bar/baz/asdf".
Proof. reflexivity. Qed.

Example join_rejects_undefined :
  path.join [Some "foo"; None; Some "bar"] = Throw path.ERR_INVALID_ARG_TYPE.
Proof. reflexivity. Qed.

Example join_above_root : path.join [Some "/"; Some "../x"] = Ok "/x".
Proof. reflexivity. Qed.

Example join_relative_above : path.join [Some "a"; Some "../../x"] = Ok "../x".
Proof. reflexivity. Qed.

Example values_order :
  JsObject.values
    (JsObject.set (JsObject.set (JsObject.set (JsObject.set
       JsObject.empty "b" 1) "10" 2) "2" 3) "a" 4)
    = [3; 2; 1; 4].
Proof. reflexivity. Qed.

Example values_after_overwrite :
  JsObject.values
    (JsObject.set (JsObject.set (JsObject.set
       JsObject.empty "b" 1) "a" 2) "b" 3)
    = [3; 2].
Proof. reflexivity. Qed.

(** *** Dictionaries *)

Lemma get_set_same {V} (o : JsObject.t V) k v :
  JsObject.get (JsObject.set o k v) k = Some v.
Proof.
  induction o as [|[k' v'] o IH]; simpl.
  - now rewrite String.eqb_refl.
  - destruct (String.eqb k k') eqn:E; simpl; rewrite E; auto.
Qed.

Lemma get_set_other {V} (o : JsObject.t V) k k' v :
  k <> k' -> JsObject.get (JsObject.set o k v) k' = JsObject.get o k'.
Proof.
  intros Hne. induction o as [|[k0 v0] o IH]; simpl.
  - destruct (String.eqb_spec k' k); congruence.
  - destruct (String.eqb_spec k k0) as [->|Hk]; simpl.
    + destruct (String.eqb_spec k' k0); congruence.
    + now rewrite IH.
Qed.

Lemma set_get_id {V} (o : JsObject.t V) k v :
  JsObject.get o k = Some v -> JsObject.set o k v = o.
Proof.
  induction o as [|[k' v'] o IH]; simpl; [discriminate|].
  destruct (String.eqb_spec k k') as [->|Hk]; intros H.
  - congruence.
  - now rewrite IH.
Qed.


Lemma get_In {V} (o : JsObject.t V) k v :
  JsObject.get o k = Some v -> In (k, v) o.
Proof.
  induction o as [|[k' v'] o IH]; simpl; [discriminate|].
  destruct (String.eqb_spec k k') as [->|Hk]; intros H.
  - left. congruence.
  - right. auto.
Qed.

Lemma insert_sorted_perm {V} (x : N * V) l :
  Permutation (JsObject.insert_sorted x l) (x :: l).
Proof.
  induction l as [|y l IH]; simpl; [reflexivity|].
  destruct (fst x <=? fst y)%N; [reflexivity|].
  rewrite IH. apply perm_swap.
Qed.

Lemma sort_by_index_perm {V} (l : list (N * V)) :
  Permutation (JsObject.sort_by_index l) l.
Proof.
  induction l as [|x l IH]; simpl; [reflexivity|].
  rewrite insert_sorted_perm. now constructor.
Qed.

(** [Object.values] lists the value of every property, once. *)
Lemma values_perm {V} (o : JsObject.t V) :
  Permutation (JsObject.values o) (map snd o).
Proof.
  unfold JsObject.values. rewrite sort_by_index_perm.
  induction o as [|[k v] o IH]; simpl; [reflexivity|].
  destruct (JsObject.array_index k); simpl.
  - now constructor.
  - rewrite <- IH. symmetry. apply Permutation_middle.
Qed.

Lemma get_In_values {V} (o : JsObject.t V) k v :
  JsObject.get o k = Some v -> In v (JsObject.values o).
Proof.
  intros H. apply (Permutation_in _ (Permutation_sym (values_perm o))).
  apply in_map_iff. exists (k, v). split; [reflexivity|].
  now apply get_In.
Qed.



(** *** Table names *)

Lemma getMainDatabasePath_eq s :
  getMainDatabasePath s = (mainDatabasePath (options (this s)), s).
Proof.
  unfold getMainDatabasePath, mainDatabasePath, bind, read, lift, ret. simpl.
  destruct (isAbsolute (opt_database (options (this s)))); [reflexivity|].
  now destruct (path.join _) as [p|e].
Qed.

(** [buildTableName] as a function of the options and the registry. *)
Lemma buildTableName_eq tableName schema db s :
  buildTableName tableName schema db s =
    if negb (Js.truthy db) then (Ok tableName, s)
    else
      let r := default "" db in
      let reg := attachedDatabases (this s) in
      let h := option_map attachHandle (JsObject.get reg r) in
      if Js.truthy h then (Ok (template h ++ "." ++ tableName)%string, s)
      else if String.eqb r (opt_database (options (this s)))
      then (Ok tableName, s)
      else
        match resolve (options (this s)) r with
        | Ok a =>
            (Ok (filepathToName r ++ "." ++ tableName)%string,
             with_this
               (set_attachedDatabases
                  (JsObject.set reg r (mkAttached a r (filepathToName r)))) s)
        | Throw e => (Throw e, s)
        end.
Proof.
  unfold buildTableName.
  destruct (negb (Js.truthy db)); [reflexivity|].
  unfold getAttachedDatabaseHandleByRelativePath, bind, read, ret. simpl.
  destruct (Js.truthy (option_map attachHandle _)); [reflexivity|].
  destruct (String.eqb _ _); [reflexivity|].
  unfold resolve.
  destruct (isAbsolute (default "" db)); [reflexivity|].
  rewrite getMainDatabasePath_eq.
  destruct (mainDatabasePath _) as [m|e]; [|reflexivity].
  unfold lift. now destruct (path.join _) as [a|e].
Qed.

Lemma with_this_same f s : f (this s) = this s -> with_this f s = s.
Proof. destruct s as [d w]. unfold with_this. simpl. now intros ->. Qed.

Lemma set_attachedDatabases_same d :
  set_attachedDatabases (attachedDatabases d) d = d.
Proof. now destruct d. Qed.

(** [buildTableName] leaves the world and every field but the registry
    alone. *)
Lemma buildTableName_frame tableName schema db s :
  let s' := snd (buildTableName tableName schema db s) in
  world s' = world s
  /\ options (this s') = options (this s)
  /\ databaseConnection (this s') = databaseConnection (this s)
  /\ queryRunner (this s') = queryRunner (this s)
  /\ sqlite (this s') = sqlite (this s).
Proof.
  rewrite buildTableName_eq.
  destruct (negb (Js.truthy db)); [now simpl|].
  cbv zeta.
  destruct (Js.truthy _); [now simpl|].
  destruct (String.eqb _ _); [now simpl|].
  destruct (resolve _ _); now simpl.
Qed.


(** *** Calls on collaborators *)

Lemma perform_eq ev s :
  perform ev s =
    (match env (trace (world s)) ev with
     | None => Ok tt
     | Some e => Throw e
     end,
     mkState (this s) (log ev (world s))).
Proof. unfold perform. now destruct (env _ _). Qed.

Lemma initial_segment_refl {A} (l : list A) : initial_segment l l.
Proof. exists []. now rewrite app_nil_r. Qed.

Lemma initial_segment_app {A} (l done all : list A) :
  initial_segment done all -> initial_segment (l ++ done) (l ++ all).
Proof. intros [rest ->]. exists rest. now rewrite app_assoc. Qed.

Ltac split_on b :=
  lazymatch b with
  | true => fail
  | false => fail
  | Some _ => fail
  | None => fail
  | _ => destruct b eqn:?
  end.

Ltac branch :=
  match goal with
  | |- context [negb ?b] => split_on b
  | |- context [env ?t ?e] => destruct (env t e) eqn:?
  | |- context [if ?b then _ else _] => split_on b
  | |- context [match ?o with Some _ => _ | None => _ end] => split_on o
  end.

Ltac run_monad :=
  unfold bind, read, assign, ret, throw, lift, when, exec, perform,
    fresh_handle, mark_closed, fresh_object, with_this, log; simpl.

(** What [createDatabaseConnection] does, whatever the collaborators
    answer. *)
Lemma createDatabaseConnection_spec s b :
  sqlite (this s) = Some b ->
  let h := nextHandle (world s) in
  let r := createDatabaseConnection s in
  this (snd r) = this s
  /\ nextObject (world (snd r)) = nextObject (world s)
  /\ exists done,
       trace (world (snd r)) = trace (world s) ++ done
       /\ initial_segment done (connection_calls (this s) b h)
       /\ match fst r with
          | Ok h' =>
              h' = h
              /\ done = connection_calls (this s) b h
              /\ openHandles (world (snd r)) = h :: openHandles (world s)
              /\ nextHandle (world (snd r)) = S h
          | Throw _ =>
              (openHandles (world (snd r)) = openHandles (world s)
               /\ nextHandle (world (snd r)) = h)
              \/ (openHandles (world (snd r)) = h :: openHandles (world s)
                  /\ nextHandle (world (snd r)) = S h)
          end.
Proof.
  intros Hb. unfold createDatabaseConnection, createDatabaseDirectory,
    call_sqlite, connection_calls.
  run_monad.
  repeat (first [rewrite Hb | branch]; simpl);
    try discriminate;
    (split; [reflexivity|]); (split; [reflexivity|]);
    eexists; (split; [rewrite <- ?app_assoc; simpl; try reflexivity;
                       symmetry; apply app_nil_r|]);
    (split; [eexists; simpl; reflexivity|]);
    auto.
Qed.


(** *** The attachment step *)

Lemma attach_one_eq e s :
  attach_one e s =
    let mk := fs_mkdir_recursive (path.dirname (attachFilepathAbsolute e)) in
    let q := connection_query (ATTACH_statement e) in
    match env (trace (world s)) mk with
    | Some err => (Throw err, mkState (this s) (log mk (world s)))
    | None =>
        (match env (trace (world s) ++ [mk]) q with
         | Some err => Throw err
         | None => Ok tt
         end,
         mkState (this s) (log q (log mk (world s))))
    end.
Proof.
  unfold attach_one, createDatabaseDirectory, bind. rewrite perform_eq.
  destruct (env (trace (world s)) _); [reflexivity|].
  rewrite perform_eq. reflexivity.
Qed.

Lemma for_of_cons {A} (x : A) xs body s :
  for_of (x :: xs) body s =
    match body x s with
    | (Ok _, s') => for_of xs body s'
    | (Throw e, s') => (Throw e, s')
    end.
Proof. reflexivity. Qed.

Lemma attach_loop_spec es : forall s,
  this (snd (for_of es attach_one s)) = this s
  /\ openHandles (world (snd (for_of es attach_one s))) = openHandles (world s)
  /\ nextHandle (world (snd (for_of es attach_one s))) = nextHandle (world s)
  /\ nextObject (world (snd (for_of es attach_one s))) = nextObject (world s)
  /\ exists done,
       trace (world (snd (for_of es attach_one s))) = trace (world s) ++ done
       /\ attach_progress es done (is_ok (fst (for_of es attach_one s))).
Proof.
  induction es as [|e es IH]; intros s.
  - simpl. repeat (split; [reflexivity|]). exists []. split.
    + now rewrite app_nil_r.
    + exists [], []. split; [reflexivity|]. left. now split.
  - rewrite for_of_cons, attach_one_eq. cbv zeta.
    destruct (env (trace (world s)) _) as [err|] eqn:Hmk.
    + (* creating the directory fails *)
      simpl. repeat (split; [reflexivity|]). eexists. split; [reflexivity|].
      exists [], (e :: es). split; [reflexivity|]. right.
      split; [reflexivity|]. now exists e, es.
    + destruct (env _ (connection_query _)) as [err|] eqn:Hq.
      * (* the attach statement fails *)
        simpl. repeat (split; [reflexivity|]). eexists.
        split; [rewrite <- app_assoc; reflexivity|].
        exists [e], es. split; [reflexivity|]. left.
        split; [reflexivity|discriminate].
      * match goal with |- context [for_of es attach_one ?s1] =>
          specialize (IH s1); destruct (for_of es attach_one s1) as [res s2]
        end.
        cbn [fst snd this world openHandles nextHandle nextObject trace log]
          in IH |- *.
        destruct IH as (Ht & Ho & Hn & Hj & done & Htr & es1 & es2 & Hes & Hp).
        repeat (split; [assumption|]).
        exists (attach_calls e ++ done). split.
        { rewrite Htr. rewrite <- !app_assoc. reflexivity. }
        exists (e :: es1), es2. split; [now rewrite Hes|].
        destruct Hp as [[Hd Hok]|[Hko (e' & es3 & He2 & Hd)]].
        -- left. split; [now rewrite Hd|exact Hok].
        -- right. split; [exact Hko|]. exists e', es3.
           split; [exact He2|]. rewrite Hd. reflexivity.
Qed.

Lemma attach_progress_initial_segment es done ok :
  attach_progress es done ok ->
  initial_segment done (attachment_calls es).
Proof.
  intros (es1 & es2 & -> & [[-> _]|[_ (e & es3 & -> & ->)]]);
    unfold attachment_calls; rewrite flat_map_app.
  - now eexists.
  - eexists. rewrite <- app_assoc. simpl. reflexivity.
Qed.

Lemma attach_progress_ok es done :
  attach_progress es done true -> done = attachment_calls es.
Proof.
  intros (es1 & es2 & -> & [[-> Hok]|[Hko _]]); [|discriminate].
  rewrite (Hok eq_refl). now rewrite app_nil_r.
Qed.


Lemma attachDatabases_spec s :
  this (snd (attachDatabases s)) = this s
  /\ openHandles (world (snd (attachDatabases s))) = openHandles (world s)
  /\ nextHandle (world (snd (attachDatabases s))) = nextHandle (world s)
  /\ nextObject (world (snd (attachDatabases s))) = nextObject (world s)
  /\ exists done,
       trace (world (snd (attachDatabases s))) = trace (world s) ++ done
       /\ attach_progress (JsObject.values (attachedDatabases (this s)))
            done (is_ok (fst (attachDatabases s))).
Proof. apply attach_loop_spec. Qed.


(** *** The methods, one by one *)

Lemma constructor_eq conn w :
  constructor conn w =
    let o := ds_options conn in
    let made b := mkDriver conn o (opt_database o) (Some b) None None [] in
    match opt_driver o with
    | Some b => (Ok (made b), w)
    | None =>
        match env (trace w) (require_package "better-sqlite3") with
        | None =>
            (Ok (made (Package "better-sqlite3")),
             log (require_package "better-sqlite3") w)
        | Some _ =>
            (Throw (DriverPackageNotInstalledError "SQLite" "better-sqlite3"),
             log (require_package "better-sqlite3") w)
        end
    end.
Proof.
  unfold constructor, loadDependencies, try_catch, PlatformTools_load.
  run_monad.
  destruct (opt_driver (ds_options conn)); [reflexivity|]. simpl.
  now destruct (env (trace w) _).
Qed.

Lemma disconnect_eq s :
  disconnect s =
    let d := set_queryRunner None (this s) in
    match databaseConnection (this s) with
    | None =>
        (Throw (TypeError
                  "Cannot read properties of undefined (reading 'close')"),
         mkState d (world s))
    | Some h =>
        match env (trace (world s)) (db_close h) with
        | Some e => (Throw e, mkState d (log (db_close h) (world s)))
        | None =>
            (Ok tt,
             mkState d
               (mkWorld (trace (world s) ++ [db_close h])
                        (remove Nat.eq_dec h (openHandles (world s)))
                        (nextHandle (world s)) (nextObject (world s))))
        end
    end.
Proof.
  unfold disconnect, close. run_monad.
  destruct (databaseConnection (this s)); [|reflexivity].
  now destruct (env _ _).
Qed.

Lemma createQueryRunner_eq mode s :
  createQueryRunner mode s =
    match queryRunner (this s) with
    | Some q => (Ok q, s)
    | None =>
        let q := BetterSqlite3QueryRunner (nextObject (world s)) in
        (Ok q,
         mkState (set_queryRunner (Some q) (this s))
           (mkWorld (trace (world s)) (openHandles (world s))
                    (nextHandle (world s)) (S (nextObject (world s)))))
    end.
Proof.
  unfold createQueryRunner. run_monad.
  now destruct (queryRunner (this s)).
Qed.

Lemma connect_spec s b :
  sqlite (this s) = Some b ->
  let h := nextHandle (world s) in
  nextObject (world (snd (connect s))) = nextObject (world s)
  /\ exists done,
       trace (world (snd (connect s))) = trace (world s) ++ done
       /\ initial_segment done (connection_calls (this s) b h)
       /\ match fst (connect s) with
          | Ok _ =>
              this (snd (connect s))
                = set_databaseConnection (Some h) (this s)
              /\ done = connection_calls (this s) b h
              /\ openHandles (world (snd (connect s)))
                   = h :: openHandles (world s)
              /\ nextHandle (world (snd (connect s))) = S h
          | Throw _ =>
              this (snd (connect s)) = this s
              /\ ((openHandles (world (snd (connect s)))
                     = openHandles (world s)
                   /\ nextHandle (world (snd (connect s))) = h)
                  \/ (openHandles (world (snd (connect s)))
                        = h :: openHandles (world s)
                      /\ nextHandle (world (snd (connect s))) = S h))
          end.
Proof.
  intros Hb h.
  pose proof (createDatabaseConnection_spec s b Hb) as H. cbv zeta in H.
  unfold connect, bind, assign.
  destruct (createDatabaseConnection s) as [[h'|e] s']; simpl in *.
  - destruct H as (Ht & Hj & done & Htr & Hseg & -> & Hd & Ho & Hn).
    split; [assumption|]. exists done.
    unfold with_this. simpl. rewrite Ht. subst h. auto 10.
  - destruct H as (Ht & Hj & done & Htr & Hseg & Hw).
    split; [assumption|]. exists done. subst h. auto 10.
Qed.


(** *** Reachable states are well formed *)

Lemma truthy_Some db :
  Js.truthy db = true -> exists r, db = Some r /\ r <> "".
Proof.
  destruct db as [r|]; [|discriminate]. unfold Js.truthy.
  intros H. exists r. split; [reflexivity|].
  intros ->. discriminate.
Qed.

Lemma forget_eq {A} (m : M A) s :
  snd (forget m s) = snd (m s)
  /\ is_ok (fst (forget m s)) = is_ok (fst (m s)).
Proof. unfold forget, bind, ret. now destruct (m s) as [[a|e] s']. Qed.

Lemma well_formed_constructed conn w d w' :
  constructor conn w = (Ok d, w') -> well_formed (mkState d w').
Proof.
  rewrite constructor_eq. cbv zeta. intros H.
  assert (Hd : exists b,
    d = mkDriver conn (ds_options conn) (opt_database (ds_options conn))
                 (Some b) None None []).
  { destruct (opt_driver (ds_options conn)) as [b|].
    - exists b. congruence.
    - destruct (env _ _); [discriminate|]. eexists. injection H as <- _.
      reflexivity. }
  destruct Hd as (b & ->). unfold well_formed. simpl.
  split; [now exists b|]. split; [discriminate|]. split; [reflexivity|].
  discriminate.
Qed.

Lemma well_formed_buildTableName tableName schema db s :
  well_formed s -> well_formed (snd (buildTableName tableName schema db s)).
Proof.
  intros Hwf. rewrite buildTableName_eq.
  destruct (negb (Js.truthy db)) eqn:Htr; [exact Hwf|].
  apply negb_false_iff, truthy_Some in Htr. destruct Htr as (r & -> & Hr).
  cbv zeta. unfold default at 1 2 3 4 5 6. cbv iota.
  destruct (Js.truthy _); [exact Hwf|].
  destruct (String.eqb_spec r (opt_database (options (this s)))) as [|Hprim];
    [exact Hwf|].
  destruct (resolve _ r) as [a|e] eqn:Hres; [|exact Hwf].
  destruct Hwf as (Hb & Hh & Hp & Hreg).
  unfold well_formed, with_this. simpl.
  split; [exact Hb|]. split; [exact Hh|]. split.
  - now rewrite get_set_other.
  - intros k e. destruct (string_dec r k) as [<-|Hk].
    + rewrite get_set_same. intros [= <-]. simpl. auto.
    + rewrite get_set_other by assumption. apply Hreg.
Qed.

Lemma well_formed_step c s :
  well_formed s -> well_formed (snd (method c s)).
Proof.
  intros Hwf. destruct c as [| | |mode|t sc db]; cbn [method].
  - (* connect *)
    destruct Hwf as ((b & Hb) & Hh & Hp & Hreg).
    pose proof (connect_spec s b Hb) as H. cbv zeta in H.
    destruct H as (_ & done & _ & _ & H).
    destruct (fst (connect s)).
    + destruct H as (Ht & _ & _ & Hn). unfold well_formed.
      rewrite Ht, Hn. simpl. split; [now exists b|]. split.
      * intros h [= <-]. lia.
      * now split.
    + destruct H as (Ht & Hn). unfold well_formed. rewrite Ht.
      split; [now exists b|]. split; [|now split].
      intros h Hc. specialize (Hh h Hc).
      destruct Hn as [[_ ->]|[_ ->]]; lia.
  - (* afterConnect *)
    unfold afterConnect.
    destruct (attachDatabases_spec s) as (Ht & _ & Hn & _).
    unfold well_formed. now rewrite Ht, Hn.
  - (* disconnect *)
    rewrite disconnect_eq. cbv zeta.
    destruct (databaseConnection (this s)) eqn:Hc;
      [destruct (env _ _)|]; exact Hwf.
  - (* createQueryRunner *)
    rewrite (proj1 (forget_eq _ _)), createQueryRunner_eq.
    destruct (queryRunner (this s)); exact Hwf.
  - (* buildTableName *)
    rewrite (proj1 (forget_eq _ _)). now apply well_formed_buildTableName.
Qed.

Lemma well_formed_run cs : forall s, well_formed s -> well_formed (run cs s).
Proof.
  induction cs as [|c cs IH]; intros s Hwf; [exact Hwf|].
  simpl. apply IH. now apply well_formed_step.
Qed.

Lemma reachable_well_formed s : reachable s -> well_formed s.
Proof.
  intros (conn & w & d & w' & cs & Hc & ->).
  apply well_formed_run. eapply well_formed_constructed. exact Hc.
Qed.

Lemma reachable_run cs s : reachable s -> reachable (run cs s).
Proof.
  intros (conn & w & d & w' & cs0 & Hc & ->).
  exists conn, w, d, w', (cs0 ++ cs). split; [exact Hc|].
  generalize (mkState d w'). induction cs0 as [|c cs0 IH]; intros s0.
  - reflexivity.
  - simpl. apply IH.
Qed.


(** *** Strings and paths *)

Lemma append_assoc (a b c : string) :
  ((a ++ b) ++ c)%string = (a ++ (b ++ c))%string.
Proof. induction a as [|x a IH]; simpl; [reflexivity|now rewrite IH]. Qed.




(** [path.join] throws on [undefined] only. *)
Lemma join_defined a b : exists p, path.join [Some a; Some b] = Ok p.
Proof.
  unfold path.join, path.join_loop.
  destruct (_ <? Js.len a)%Z; destruct (_ <? Js.len b)%Z; eauto.
Qed.

Lemma join_undefined b :
  path.join [None; Some b] = Throw path.ERR_INVALID_ARG_TYPE.
Proof. reflexivity. Qed.

Lemma resolve_defined o r :
  isAbsolute (opt_database o) = true \/ opt_baseDirectory o <> None ->
  exists a, resolve o r = Ok a.
Proof.
  intros H. unfold resolve. destruct (isAbsolute r); [eauto|].
  assert (Hm : exists m, mainDatabasePath o = Ok m).
  { unfold mainDatabasePath.
    destruct (isAbsolute (opt_database o)); [eauto|].
    destruct H as [H|H]; [discriminate|].
    destruct (opt_baseDirectory o) as [base|]; [|contradiction].
    destruct (join_defined base (opt_database o)) as (p & ->). eauto. }
  destruct Hm as (m & ->). apply join_defined.
Qed.

Lemma resolve_undefined o r :
  isAbsolute (opt_database o) = false -> opt_baseDirectory o = None ->
  isAbsolute r = false ->
  resolve o r = Throw path.ERR_INVALID_ARG_TYPE.
Proof.
  intros Hp Hb Hr. unfold resolve, mainDatabasePath.
  now rewrite Hr, Hp, Hb, join_undefined.
Qed.

(** *** Connecting without a binding *)

Lemma createDatabaseConnection_nobinding s :
  sqlite (this s) = None ->
  let r := createDatabaseConnection s in
  is_ok (fst r) = false
  /\ this (snd r) = this s
  /\ openHandles (world (snd r)) = openHandles (world s)
  /\ nextHandle (world (snd r)) = nextHandle (world s)
  /\ nextObject (world (snd r)) = nextObject (world s)
  /\ trace (world (snd r)) =
       trace (world s)
       ++ (if String.eqb (opt_database (options (this s))) ":memory:"
           then []
           else [fs_mkdir_recursive
                   (path.dirname (opt_database (options (this s))))]).
Proof.
  intros Hb. unfold createDatabaseConnection, createDatabaseDirectory,
    call_sqlite.
  run_monad.
  destruct (String.eqb _ _); simpl.
  - rewrite Hb. simpl. now rewrite app_nil_r.
  - destruct (env _ _); simpl; [|rewrite Hb; simpl]; auto 10.
Qed.

Lemma createDatabaseConnection_this s :
  this (snd (createDatabaseConnection s)) = this s.
Proof.
  destruct (sqlite (this s)) as [b|] eqn:Hb.
  - apply (createDatabaseConnection_spec s b Hb).
  - apply (createDatabaseConnection_nobinding s Hb).
Qed.

(** No method but [buildTableName] touches the options or the registry. *)
Lemma method_registry c s :
  options (this (snd (method c s))) = options (this s)
  /\ (attachedDatabases (this (snd (method c s))) = attachedDatabases (this s)
      \/ exists t sc db, c = Call_buildTableName t sc db).
Proof.
  destruct c as [| | |mode|t sc db]; cbn [method].
  - unfold connect, bind, assign.
    pose proof (createDatabaseConnection_this s) as H.
    destruct (createDatabaseConnection s) as [[h|e] s']; simpl in *;
      rewrite H; auto.
  - unfold afterConnect. destruct (attachDatabases_spec s) as (-> & _). auto.
  - rewrite disconnect_eq. cbv zeta.
    destruct (databaseConnection (this s)); [destruct (env _ _)|]; auto.
  - rewrite (proj1 (forget_eq _ _)), createQueryRunner_eq.
    destruct (queryRunner (this s)); auto.
  - rewrite (proj1 (forget_eq _ _)).
    split; [apply buildTableName_frame|eauto].
Qed.


(** *** The handle the driver holds *)

Lemma existsb_remove h l :
  existsb (Nat.eqb h) (remove Nat.eq_dec h l) = false.
Proof.
  induction l as [|x l IH]; simpl; [reflexivity|].
  destruct (Nat.eq_dec h x) as [->|Hx]; [exact IH|].
  simpl. rewrite IH. now apply Nat.eqb_neq in Hx as ->.
Qed.

(** What one call does to the handle the driver holds. *)
Lemma handle_step c s :
  well_formed s ->
  let ok := is_ok (fst (method c s)) in
  let s' := snd (method c s) in
  databaseConnection (this s') =
    match c, ok with
    | Call_connect, true => Some (nextHandle (world s))
    | _, _ => databaseConnection (this s)
    end
  /\ holds_open_handle s' =
       match c, ok with
       | Call_connect, true => true
       | Call_disconnect, true => false
       | _, _ => holds_open_handle s
       end.
Proof.
  intros Hwf. destruct c as [| | |mode|t sc db]; cbn [method]; cbv zeta.
  - (* connect *)
    destruct Hwf as ((b & Hb) & Hh & _).
    pose proof (connect_spec s b Hb) as H. cbv zeta in H.
    destruct H as (_ & done & _ & _ & H). unfold holds_open_handle.
    destruct (fst (connect s)); cbn [is_ok].
    + destruct H as (-> & _ & -> & _). simpl.
      now rewrite Nat.eqb_refl.
    + destruct H as (-> & Hn). split; [reflexivity|].
      destruct (databaseConnection (this s)) as [h|]; [|reflexivity].
      destruct Hn as [[-> _]|[-> _]]; [reflexivity|]. simpl.
      specialize (Hh h eq_refl).
      now apply Nat.lt_neq, Nat.eqb_neq in Hh as ->.
  - (* afterConnect *)
    unfold afterConnect, holds_open_handle.
    destruct (attachDatabases_spec s) as (-> & -> & _).
    try (destruct (is_ok (fst (attachDatabases s)))); auto.
  - (* disconnect *)
    rewrite disconnect_eq. cbv zeta. unfold holds_open_handle.
    destruct (databaseConnection (this s)) as [h|] eqn:Hc;
      [destruct (env _ _)|]; simpl; rewrite ?Hc; auto.
    split; [reflexivity|apply existsb_remove].
  - (* createQueryRunner *)
    rewrite (proj1 (forget_eq (createQueryRunner mode) s)).
    rewrite createQueryRunner_eq. unfold holds_open_handle.
    destruct (queryRunner (this s)); auto.
  - (* buildTableName *)
    rewrite (proj1 (forget_eq (buildTableName t sc db) s)).
    unfold holds_open_handle.
    destruct (buildTableName_frame t sc db s) as (-> & _ & -> & _). auto.
Qed.

Lemma handle_run cs : forall s,
  well_formed s ->
  holds_open_handle (run cs s)
    = connected_after (outcomes cs s) (holds_open_handle s)
  /\ (databaseConnection (this (run cs s)) <> None <->
      databaseConnection (this s) <> None
      \/ ever_connected (outcomes cs s) = true).
Proof.
  induction cs as [|c cs IH]; intros s Hwf.
  - simpl. intuition discriminate.
  - cbn [run outcomes].
    destruct (IH _ (well_formed_step c s Hwf)) as (IHo & IHc).
    pose proof (handle_step c s Hwf) as (Hc & Ho). cbv zeta in Hc, Ho.
    rewrite IHo, IHc, Hc, Ho.
    destruct c; destruct (is_ok (fst _)); cbn [connected_after ever_connected];
      (split; [reflexivity|]); intuition discriminate.
Qed.

(** C1 (amended): [disconnect] drops the cached query runner and then calls
    [close] on the handle the driver holds, ending the way that call ends;
    it checks nothing itself and keeps the handle.  On a driver that was
    never connected the handle is missing and the call fails with a
    [TypeError], the query runner being dropped all the same; a second call
    in succession calls [close] on the same handle again. *)
Theorem disconnect_drops_runner_then_closes s :
  queryRunner (this (snd (disconnect s))) = None
  /\ databaseConnection (this (snd (disconnect s)))
       = databaseConnection (this s)
  /\ match databaseConnection (this s) with
     | None =>
         fst (disconnect s)
           = Throw (TypeError
                      "Cannot read properties of undefined (reading 'close')")
         /\ world (snd (disconnect s)) = world s
     | Some h =>
         fst (disconnect s)
           = match env (trace (world s)) (db_close h) with
             | None => Ok tt
             | Some e => Throw e
             end
         /\ trace (world (snd (disconnect s)))
              = trace (world s) ++ [db_close h]
         /\ trace (world (snd (disconnect (snd (disconnect s)))))
              = trace (world s) ++ [db_close h; db_close h]
     end.
Proof.
  rewrite (disconnect_eq (snd (disconnect s))).
  rewrite !disconnect_eq. cbv zeta.
  destruct (databaseConnection (this s)) as [h|] eqn:Hc.
  - destruct (env (trace (world s)) (db_close h)); simpl; rewrite Hc;
      (destruct (env _ _); simpl; rewrite <- app_assoc; auto).
  - simpl. auto.
Qed.

(** C6 (amended): the driver holds an open physical connection handle if and
    only if the last successful call among connects and disconnects is a
    connect; [disconnect] closes the handle and leaves it in the driver, so
    that the driver holds a handle, open or closed, from the first
    successful connect on. *)
Theorem holds_open_handle_iff_connected conn w d w' cs :
  constructor conn w = (Ok d, w') ->
  holds_open_handle (run cs (mkState d w'))
    = connected_after (outcomes cs (mkState d w')) false
  /\ (databaseConnection (this (run cs (mkState d w'))) <> None <->
      ever_connected (outcomes cs (mkState d w')) = true).
Proof.
  intros Hc.
  pose proof (well_formed_constructed _ _ _ _ Hc) as Hwf.
  destruct (handle_run cs _ Hwf) as (Ho & Hd).
  assert (H0 : databaseConnection d = None).
  { rewrite constructor_eq in Hc. cbv zeta in Hc.
    destruct (opt_driver _); [|destruct (env _ _)]; now inversion Hc. }
  split.
  - rewrite Ho. unfold holds_open_handle. simpl. now rewrite H0.
  - rewrite Hd. simpl. rewrite H0. intuition congruence.
Qed.


(** *** Table names: the primary database, relative references *)

Lemma truthy_nonempty r : r <> "" -> Js.truthy (Some r) = true.
Proof.
  intros H. unfold Js.truthy. now apply String.eqb_neq in H as ->.
Qed.

(** In a reachable state, a reference with a registry entry is one that
    resolves, and the entry is the one computed from it. *)
Lemma registered_entry s k e :
  well_formed s ->
  JsObject.get (attachedDatabases (this s)) k = Some e ->
  exists a,
    resolve (options (this s)) k = Ok a
    /\ e = mkAttached a k (filepathToName k).
Proof.
  intros (_ & _ & _ & Hreg) Hk. destruct (Hreg k e Hk) as (_ & Hr & Hrel & Hh).
  exists (attachFilepathAbsolute e). split; [exact Hr|].
  destruct e. simpl in *. congruence.
Qed.

(** C5 (amended): whenever the database reference is empty or absent, or is
    the very string [options.database], [buildTableName] returns the
    identifier unqualified and leaves the driver as it is, and the registry
    never has an entry under that string.  The test is on the strings:
    nothing is said of another reference that leads to the primary file. *)
Theorem buildTableName_unqualified_for_primary s tableName schema db :
  reachable s ->
  Js.truthy db = false \/ db = Some (opt_database (options (this s))) ->
  buildTableName tableName schema db s = (Ok tableName, s)
  /\ JsObject.get (attachedDatabases (this s))
       (opt_database (options (this s))) = None.
Proof.
  intros Hreach Hdb. apply reachable_well_formed in Hreach.
  destruct Hreach as (_ & _ & Hprim & _). split; [|exact Hprim].
  rewrite buildTableName_eq.
  destruct (Js.truthy db) eqn:Htr; [|reflexivity].
  destruct Hdb as [Hdb| ->]; [discriminate|].
  cbv zeta. unfold default. cbn [negb]. rewrite Hprim. cbn [option_map].
  unfold Js.truthy at 1. now rewrite String.eqb_refl.
Qed.

(** C9: when the primary database path is relative and no [baseDirectory]
    is configured, [buildTableName] fails on every relative reference other
    than the primary one, with the [TypeError] [path.join] raises on the
    missing [baseDirectory], and leaves the driver as it is; when the
    primary path is absolute or a [baseDirectory] is configured, no call of
    [buildTableName] fails. *)
Theorem buildTableName_fails_without_baseDirectory s tableName schema :
  reachable s ->
  (isAbsolute (opt_database (options (this s))) = false ->
   opt_baseDirectory (options (this s)) = None ->
   forall r,
     r <> "" -> r <> opt_database (options (this s)) ->
     isAbsolute r = false ->
     buildTableName tableName schema (Some r) s
       = (Throw path.ERR_INVALID_ARG_TYPE, s))
  /\ (isAbsolute (opt_database (options (this s))) = true
      \/ opt_baseDirectory (options (this s)) <> None ->
      forall db, is_ok (fst (buildTableName tableName schema db s)) = true).
Proof.
  intros Hreach. apply reachable_well_formed in Hreach. split.
  - intros Hp Hb r Hr Hprim Hrel.
    pose proof (resolve_undefined _ r Hp Hb Hrel) as Hres.
    rewrite buildTableName_eq, (truthy_nonempty r Hr).
    cbv zeta. unfold default. cbn [negb].
    destruct (JsObject.get (attachedDatabases (this s)) r) as [e|] eqn:He.
    + destruct (registered_entry s r e Hreach He) as (a & Ha & _).
      congruence.
    + cbn [option_map]. unfold Js.truthy at 1.
      apply String.eqb_neq in Hprim. now rewrite Hprim, Hres.
  - intros Hok db. rewrite buildTableName_eq.
    destruct (negb (Js.truthy db)); [reflexivity|]. cbv zeta.
    destruct (Js.truthy _); [reflexivity|].
    destruct (String.eqb _ _); [reflexivity|].
    destruct (resolve_defined _ (default "" db) Hok) as (a & ->).
    reflexivity.
Qed.

(** C2 (amended): for every relative reference other than the primary one,
    the absolute path [buildTableName] stores is [path.join] of the primary
    database's containing directory and the reference, whatever the working
    directory of the process; [path.join] normalizes the result, so that
    with primary path [/data/main.db] the reference [../shared/ext.db] is
    stored as [/shared/ext.db]. *)
Theorem relative_reference_joined_to_primary_directory
    s tableName schema r main :
  reachable s ->
  r <> "" -> r <> opt_database (options (this s)) ->
  isAbsolute r = false ->
  mainDatabasePath (options (this s)) = Ok main ->
  exists a,
    path.join [Some main; Some r] = Ok a
    /\ JsObject.get
         (attachedDatabases
            (this (snd (buildTableName tableName schema (Some r) s)))) r
       = Some (mkAttached a r (filepathToName r))
    /\ (isAbsolute (opt_database (options (this s))) = true ->
        main = path.dirname (opt_database (options (this s))))
    /\ (main = "/data" -> r = "../shared/ext.db" -> a = "/shared/ext.db").
Proof.
  intros Hreach Hr Hprim Hrel Hmain. apply reachable_well_formed in Hreach.
  destruct (join_defined main r) as (a & Ha). exists a.
  assert (Hres : resolve (options (this s)) r = Ok a).
  { unfold resolve. now rewrite Hrel, Hmain. }
  split; [exact Ha|]. split; [|split].
  - rewrite buildTableName_eq, (truthy_nonempty r Hr).
    cbv zeta. unfold default. cbn [negb].
    destruct (JsObject.get (attachedDatabases (this s)) r) as [e|] eqn:He.
    + destruct (registered_entry s r e Hreach He) as (a' & Ha' & ->).
      assert (a' = a) as -> by congruence.
      cbn [option_map attachHandle].
      destruct (Js.truthy _); [exact He|].
      apply String.eqb_neq in Hprim. rewrite Hprim, Hres. simpl.
      apply get_set_same.
    + cbn [option_map]. unfold Js.truthy at 1.
      apply String.eqb_neq in Hprim. rewrite Hprim, Hres. simpl.
      apply get_set_same.
  - intros Habs. unfold mainDatabasePath in Hmain. rewrite Habs in Hmain.
    congruence.
  - intros -> ->. vm_compute in Ha. congruence.
Qed.


(** *** Table names: repeated calls *)

(** What [buildTableName] does for a reference depends on the options and
    on the registry entry of that reference only. *)
Lemma buildTableName_depends tableName schema db s1 s2 :
  options (this s2) = options (this s1) ->
  JsObject.get (attachedDatabases (this s2)) (default "" db)
    = JsObject.get (attachedDatabases (this s1)) (default "" db) ->
  snd (buildTableName tableName schema db s1) = s1 ->
  fst (buildTableName tableName schema db s2)
    = fst (buildTableName tableName schema db s1)
  /\ snd (buildTableName tableName schema db s2) = s2.
Proof.
  intros Ho Hg. rewrite !buildTableName_eq. cbv zeta. rewrite Ho, Hg.
  destruct (negb (Js.truthy db)); [auto|].
  destruct (Js.truthy _); [auto|].
  destruct (String.eqb _ _); [auto|].
  destruct (resolve _ _) as [a|e]; [|auto].
  cbn [fst snd]. intros Hfix. split; [reflexivity|].
  apply (f_equal (fun s => attachedDatabases (this s))) in Hfix.
  unfold with_this in Hfix. simpl in Hfix.
  assert (He : JsObject.get (attachedDatabases (this s1)) (default "" db)
               = Some (mkAttached a (default "" db)
                         (filepathToName (default "" db)))).
  { rewrite <- Hfix at 1. apply get_set_same. }
  rewrite <- Hg in He. apply with_this_same.
  rewrite (set_get_id _ _ _ He). apply set_attachedDatabases_same.
Qed.

(** Once [buildTableName] has returned for a reference, calling it again
    for that reference changes nothing. *)
Lemma buildTableName_settled tableName schema db s q s1 :
  buildTableName tableName schema db s = (Ok q, s1) ->
  exists prefix,
    q = (prefix ++ tableName)%string
    /\ (prefix = ""
        \/ exists e,
             JsObject.get (attachedDatabases (this s1)) (default "" db)
               = Some e
             /\ prefix = (attachHandle e ++ ".")%string)
    /\ forall tableName' schema',
         buildTableName tableName' schema' db s1
           = (Ok (prefix ++ tableName')%string, s1).
Proof.
  rewrite buildTableName_eq.
  destruct (negb (Js.truthy db)) eqn:Htr.
  { intros [= <- <-]. exists "". split; [reflexivity|]. split; [now left|].
    intros t' sc'. rewrite buildTableName_eq. now rewrite Htr. }
  cbv zeta.
  destruct (JsObject.get (attachedDatabases (this s)) (default "" db))
    as [e0|] eqn:Hget; cbn [option_map].
  - destruct (Js.truthy (Some (attachHandle e0))) eqn:Hh.
    + intros [= <- <-]. exists (attachHandle e0 ++ ".")%string.
      split; [cbn [template]; now rewrite append_assoc|].
      split; [right; now exists e0|].
      intros t' sc'. rewrite buildTableName_eq, Htr. cbv zeta.
      rewrite Hget. cbn [option_map]. rewrite Hh. cbn [template].
      now rewrite append_assoc.
    + destruct (String.eqb _ _) eqn:Hprim.
      * intros [= <- <-]. exists "". split; [reflexivity|].
        split; [now left|].
        intros t' sc'. rewrite buildTableName_eq, Htr. cbv zeta.
        rewrite Hget. cbn [option_map]. now rewrite Hh, Hprim.
      * destruct (resolve _ _) as [a|err] eqn:Hres; [|discriminate].
        intros [= <- <-].
        exists (filepathToName (default "" db) ++ ".")%string.
        split; [now rewrite append_assoc|].
        unfold with_this. cbn [this attachedDatabases set_attachedDatabases].
        rewrite get_set_same. split; [right; eauto|].
        intros t' sc'. rewrite buildTableName_eq, Htr. cbv zeta.
        cbn [this attachedDatabases set_attachedDatabases options world].
        rewrite get_set_same. cbn [option_map attachHandle].
        destruct (Js.truthy (Some (filepathToName _)));
          [cbn [template]; now rewrite append_assoc|].
        rewrite Hprim, Hres, append_assoc.
        rewrite (set_get_id _ _ _ (get_set_same _ _ _)). reflexivity.
  - unfold Js.truthy at 1.
    destruct (String.eqb _ _) eqn:Hprim.
    * intros [= <- <-]. exists "". split; [reflexivity|].
      split; [now left|].
      intros t' sc'. rewrite buildTableName_eq, Htr. cbv zeta.
      rewrite Hget. cbn [option_map]. unfold Js.truthy at 1.
      now rewrite Hprim.
    * destruct (resolve _ _) as [a|err] eqn:Hres; [|discriminate].
      intros [= <- <-].
      exists (filepathToName (default "" db) ++ ".")%string.
      split; [now rewrite append_assoc|].
      unfold with_this. cbn [this attachedDatabases set_attachedDatabases].
      rewrite get_set_same. split; [right; eauto|].
      intros t' sc'. rewrite buildTableName_eq, Htr. cbv zeta.
      cbn [this attachedDatabases set_attachedDatabases options world].
      rewrite get_set_same. cbn [option_map attachHandle].
      destruct (Js.truthy (Some (filepathToName _)));
        [cbn [template]; now rewrite append_assoc|].
      rewrite Hprim, Hres, append_assoc.
      rewrite (set_get_id _ _ _ (get_set_same _ _ _)). reflexivity.
Qed.


Lemma settled_step c s db prefix :
  (forall t sc, buildTableName t sc db s = (Ok (prefix ++ t)%string, s)) ->
  options (this (snd (method c s))) = options (this s)
  /\ JsObject.get (attachedDatabases (this (snd (method c s)))) (default "" db)
     = JsObject.get (attachedDatabases (this s)) (default "" db).
Proof.
  intros Hfix. destruct (method_registry c s) as (Ho & Hreg).
  split; [exact Ho|].
  destruct Hreg as [->|(t & sc & db' & ->)]; [reflexivity|].
  cbn [method]. rewrite (proj1 (forget_eq _ _)).
  destruct (option_map (String.eqb (default "" db)) db') as [[|]|] eqn:Hsame.
  - (* the same reference, and not an empty one *)
    destruct db' as [r'|]; [|discriminate]. injection Hsame as Hsame.
    apply String.eqb_eq in Hsame.
    destruct (Js.truthy (Some r')) eqn:Htr.
    + assert (db = Some r') as ->.
      { destruct db as [r|]; unfold default in Hsame; [now subst|].
        subst r'. discriminate. }
      now rewrite Hfix.
    + rewrite buildTableName_eq, Htr. reflexivity.
  - (* another reference *)
    destruct db' as [r'|]; [|discriminate]. injection Hsame as Hsame.
    apply String.eqb_neq in Hsame.
    rewrite buildTableName_eq. cbv zeta.
    destruct (negb _); [reflexivity|].
    destruct (Js.truthy _); [reflexivity|].
    destruct (String.eqb _ _); [reflexivity|].
    destruct (resolve _ _); [|reflexivity].
    unfold with_this. simpl. apply get_set_other.
    unfold default at 1. congruence.
  - destruct db'; [discriminate|]. rewrite buildTableName_eq. reflexivity.
Qed.

Lemma settled_run cs : forall s db prefix,
  (forall t sc, buildTableName t sc db s = (Ok (prefix ++ t)%string, s)) ->
  (forall t sc,
     buildTableName t sc db (run cs s) = (Ok (prefix ++ t)%string, run cs s))
  /\ JsObject.get (attachedDatabases (this (run cs s))) (default "" db)
     = JsObject.get (attachedDatabases (this s)) (default "" db).
Proof.
  induction cs as [|c cs IH]; intros s db prefix Hfix; [now split|].
  cbn [run]. destruct (settled_step c s db prefix Hfix) as (Ho & Hg).
  assert (Hfix' : forall t sc,
    buildTableName t sc db (snd (method c s))
      = (Ok (prefix ++ t)%string, snd (method c s))).
  { intros t sc.
    destruct (buildTableName_depends t sc db s (snd (method c s)) Ho Hg)
      as (Hf & Hs); [now rewrite Hfix|].
    rewrite Hfix in Hf.
    destruct (buildTableName t sc db (snd (method c s))). simpl in *.
    congruence. }
  destruct (IH _ db prefix Hfix') as (IHf & IHg).
  split; [exact IHf|]. now rewrite IHg.
Qed.

(** C3: once [buildTableName] has returned for a reference, every later
    call for that reference on the same driver, whatever was called in
    between, returns the same prefix in front of the identifier, takes the
    handle from the registry entry the reference already has, and leaves
    the driver, its registry included, as it is. *)
Theorem buildTableName_idempotent s tableName schema db q s1 :
  buildTableName tableName schema db s = (Ok q, s1) ->
  exists prefix,
    q = (prefix ++ tableName)%string
    /\ (prefix = ""
        \/ exists e,
             JsObject.get (attachedDatabases (this s1)) (default "" db)
               = Some e
             /\ prefix = (attachHandle e ++ ".")%string)
    /\ forall cs tableName' schema',
         buildTableName tableName' schema' db (run cs s1)
           = (Ok (prefix ++ tableName')%string, run cs s1)
         /\ JsObject.get (attachedDatabases (this (run cs s1)))
              (default "" db)
            = JsObject.get (attachedDatabases (this s1)) (default "" db).
Proof.
  intros H.
  destruct (buildTableName_settled _ _ _ _ _ _ H) as (prefix & Hq & He & Hfix).
  exists prefix. split; [exact Hq|]. split; [exact He|].
  intros cs t' sc'. destruct (settled_run cs s1 db prefix Hfix) as (Hf & Hg).
  split; [apply Hf|exact Hg].
Qed.


(** *** Table names: new references *)




(** *** Connecting *)

(** C4: the calls of a connect followed by the attachment step are, in this
    order, the creation of the primary database's directory (unless it is
    in memory), the opening of the handle, the key pragma (if a key is
    configured), the [prepareDatabase] hook (if there is one), the pragma
    that turns foreign keys on, the pragma for write-ahead logging (if
    [enableWAL] is set), and then, for each registry entry, the creation of
    its directory and its attach statement.  When a call fails the calls
    made are an initial segment of these; the state the driver is in, a
    reconnect included, makes no difference. *)
Theorem connect_calls_in_fixed_order s b :
  sqlite (this s) = Some b ->
  let expected :=
    connection_calls (this s) b (nextHandle (world s))
    ++ attachment_calls (JsObject.values (attachedDatabases (this s))) in
  exists done,
    trace (world (snd (initialize s))) = trace (world s) ++ done
    /\ initial_segment done expected
    /\ (is_ok (fst (initialize s)) = true -> done = expected).
Proof.
  intros Hb expected. subst expected.
  pose proof (connect_spec s b Hb) as H. cbv zeta in H.
  destruct H as (_ & done & Htr & Hseg & H).
  unfold initialize, bind, afterConnect.
  destruct (connect s) as [[[]|e] s1]; cbn [fst snd] in *.
  - destruct H as (Ht & -> & _).
    destruct (attachDatabases_spec s1) as (_ & _ & _ & _ & done' & Htr' & Hp).
    rewrite Ht in Hp. cbn [attachedDatabases set_databaseConnection] in Hp.
    exists (connection_calls (this s) b (nextHandle (world s)) ++ done').
    split; [now rewrite Htr', Htr, app_assoc|]. split.
    + apply initial_segment_app.
      eapply attach_progress_initial_segment, Hp.
    + intros Hok. rewrite Hok in Hp. apply attach_progress_ok in Hp.
      now rewrite Hp.
  - exists done. split; [exact Htr|]. split; [|discriminate].
    destruct Hseg as (rest & ->). exists (rest ++ attachment_calls
      (JsObject.values (attachedDatabases (this s)))).
    now rewrite app_assoc.
Qed.


Lemma initial_segment_In {A} (x : A) done all :
  initial_segment done all -> In x done -> In x all.
Proof. intros (rest & ->) H. apply in_or_app. now left. Qed.

Lemma connection_calls_kinds d b h ev :
  In ev (connection_calls d b h) ->
  (exists dir, ev = fs_mkdir_recursive dir
               /\ String.eqb (opt_database (options d)) ":memory:" = false)
  \/ (exists db o, ev = sqlite_open b db o)
  \/ (exists sql, ev = db_exec h sql)
  \/ (exists f, ev = prepareDatabase_call f h).
Proof.
  unfold connection_calls. intros H.
  repeat (apply in_app_or in H; destruct H as [H|H]).
  - destruct (String.eqb _ _); [destruct H|]. destruct H as [<-|[]]. eauto.
  - destruct H as [<-|[]]. eauto.
  - destruct (Js.truthy _); [|destruct H]. destruct H as [<-|[]]. eauto.
  - destruct (opt_prepareDatabase _); [|destruct H].
    destruct H as [<-|[]]. eauto 6.
  - destruct H as [<-|[]]. eauto.
  - destruct (default false _); [|destruct H]. destruct H as [<-|[]]. eauto.
Qed.

Lemma attachment_calls_kinds es ev :
  In ev (attachment_calls es) ->
  exists e,
    In e es
    /\ (ev = fs_mkdir_recursive (path.dirname (attachFilepathAbsolute e))
        \/ ev = connection_query (ATTACH_statement e)).
Proof.
  unfold attachment_calls. intros H. apply in_flat_map in H.
  destruct H as (e & He & H). exists e. split; [exact He|].
  simpl in H. intuition.
Qed.


(** *** Construction *)

Lemma method_makes_no_load c s :
  well_formed s ->
  exists done,
    trace (world (snd (method c s))) = trace (world s) ++ done
    /\ forall name, ~ In (require_package name) done.
Proof.
  intros Hwf. destruct c as [| | |mode|t sc db]; cbn [method].
  - destruct Hwf as ((b & Hb) & _).
    pose proof (connect_spec s b Hb) as H. cbv zeta in H.
    destruct H as (_ & done & Htr & Hseg & _).
    exists done. split; [exact Htr|]. intros name Hin.
    apply (initial_segment_In _ _ _ Hseg), connection_calls_kinds in Hin.
    destruct Hin as [(dir' & H & _)|[(db & o & H)|[(sql & H)|(f & H)]]];
      discriminate.
  - unfold afterConnect.
    destruct (attachDatabases_spec s) as (_ & _ & _ & _ & done & Htr & Hp).
    exists done. split; [exact Htr|]. intros name Hin.
    apply (initial_segment_In _ _ _ (attach_progress_initial_segment _ _ _ Hp)),
      attachment_calls_kinds in Hin.
    destruct Hin as (e & _ & [H|H]); discriminate.
  - rewrite disconnect_eq. cbv zeta.
    destruct (databaseConnection (this s)) as [h|].
    + exists [db_close h]. split; [now destruct (env _ _)|].
      intros name [H|[]]. discriminate.
    + exists []. split; [simpl; now rewrite app_nil_r|auto].
  - rewrite (proj1 (forget_eq _ _)), createQueryRunner_eq.
    exists []. split; [|auto].
    destruct (queryRunner (this s)); simpl; now rewrite app_nil_r.
  - rewrite (proj1 (forget_eq _ _)).
    destruct (buildTableName_frame t sc db s) as (-> & _).
    exists []. split; [now rewrite app_nil_r|auto].
Qed.

Lemma run_makes_no_load cs : forall s,
  well_formed s ->
  exists done,
    trace (world (run cs s)) = trace (world s) ++ done
    /\ forall name, ~ In (require_package name) done.
Proof.
  induction cs as [|c cs IH]; intros s Hwf.
  - exists []. split; [simpl; now rewrite app_nil_r|auto].
  - cbn [run].
    destruct (method_makes_no_load c s Hwf) as (d1 & H1 & N1).
    destruct (IH _ (well_formed_step c s Hwf)) as (d2 & H2 & N2).
    exists (d1 ++ d2). split; [now rewrite H2, H1, app_assoc|].
    intros name Hin. apply in_app_or in Hin.
    destruct Hin as [Hin|Hin]; [exact (N1 name Hin)|exact (N2 name Hin)].
Qed.

(** C8: the constructor takes the binding from the [driver] option when
    there is one, without loading anything, and otherwise loads the package
    [better-sqlite3]; when loading fails the constructor itself throws the
    error that names the engine family [SQLite] and the package
    [better-sqlite3], having made no other call.  A driver that was
    constructed has its binding, and no later call loads one. *)
Theorem dependency_acquired_at_construction conn w :
  (forall b,
     opt_driver (ds_options conn) = Some b ->
     exists d, constructor conn w = (Ok d, w) /\ sqlite d = Some b)
  /\ (opt_driver (ds_options conn) = None ->
      exists r,
        constructor conn w
          = (r, log (require_package "better-sqlite3") w)
        /\ match env (trace w) (require_package "better-sqlite3") with
           | None =>
               exists d,
                 r = Ok d /\ sqlite d = Some (Package "better-sqlite3")
           | Some _ =>
               r = Throw (DriverPackageNotInstalledError
                            "SQLite" "better-sqlite3")
           end)
  /\ (forall d w' cs,
        constructor conn w = (Ok d, w') ->
        databaseConnection d = None
        /\ (exists b, sqlite (this (run cs (mkState d w'))) = Some b)
        /\ exists done,
             trace (world (run cs (mkState d w'))) = trace w' ++ done
             /\ forall name, ~ In (require_package name) done).
Proof.
  split; [|split].
  - intros b Hb. rewrite constructor_eq. cbv zeta. rewrite Hb. eauto.
  - intros Hb. rewrite constructor_eq. cbv zeta. rewrite Hb.
    destruct (env _ _); eauto.
  - intros d w' cs Hc.
    pose proof (well_formed_constructed _ _ _ _ Hc) as Hwf.
    split; [|split].
    + rewrite constructor_eq in Hc. cbv zeta in Hc.
      destruct (opt_driver _); [|destruct (env _ _)]; now inversion Hc.
    + apply (well_formed_run cs _ Hwf).
    + apply (run_makes_no_load cs _ Hwf).
Qed.


(* =================================================================== *)
(** ** Further properties of the methods *)
(* =================================================================== *)

(** *** What the methods keep *)

Lemma connect_this s :
  this (snd (connect s)) = this s
  \/ exists h, this (snd (connect s)) = set_databaseConnection (Some h) (this s).
Proof.
  unfold connect, bind, assign.
  pose proof (createDatabaseConnection_this s) as H.
  destruct (createDatabaseConnection s) as [[h|e] s']; simpl in *.
  - right. exists h. now rewrite H.
  - now left.
Qed.

Lemma method_configuration c s :
  connection (this (snd (method c s))) = connection (this s)
  /\ options (this (snd (method c s))) = options (this s)
  /\ database (this (snd (method c s))) = database (this s)
  /\ sqlite (this (snd (method c s))) = sqlite (this s).
Proof.
  destruct c as [| | |mode|t sc db]; cbn [method].
  - destruct (connect_this s) as [->|(h & ->)]; auto.
  - unfold afterConnect. destruct (attachDatabases_spec s) as (-> & _). auto.
  - rewrite disconnect_eq. cbv zeta.
    destruct (databaseConnection (this s)); [destruct (env _ _)|]; auto.
  - rewrite (proj1 (forget_eq _ _)), createQueryRunner_eq.
    destruct (queryRunner (this s)); auto.
  - rewrite (proj1 (forget_eq _ _)), buildTableName_eq.
    destruct (negb _); [auto|]. cbv zeta.
    destruct (Js.truthy _); [auto|].
    destruct (String.eqb _ _); [auto|].
    destruct (resolve _ _); auto.
Qed.

(** X7: no call on the driver changes its data source, its options, its
    [database] field or its binding: they are what the constructor made
    them, after any sequence of calls, failed ones included. *)
Theorem configuration_never_changes cs : forall s,
  connection (this (run cs s)) = connection (this s)
  /\ options (this (run cs s)) = options (this s)
  /\ database (this (run cs s)) = database (this s)
  /\ sqlite (this (run cs s)) = sqlite (this s).
Proof.
  induction cs as [|c cs IH]; intros s; [now cbn|].
  cbn [run]. destruct (IH (snd (method c s))) as (-> & -> & -> & ->).
  apply method_configuration.
Qed.

(** *** The query runner *)

Lemma method_keeps_runner c s q :
  c <> Call_disconnect ->
  queryRunner (this s) = Some q ->
  queryRunner (this (snd (method c s))) = Some q.
Proof.
  intros Hc Hq. destruct c as [| | |mode|t sc db]; cbn [method].
  - destruct (connect_this s) as [->|(h & ->)]; exact Hq.
  - unfold afterConnect. now destruct (attachDatabases_spec s) as (-> & _).
  - contradiction.
  - rewrite (proj1 (forget_eq _ _)), createQueryRunner_eq. now rewrite Hq.
  - rewrite (proj1 (forget_eq _ _)).
    now destruct (buildTableName_frame t sc db s) as (_ & _ & _ & -> & _).
Qed.

Lemma run_keeps_runner cs : forall s q,
  no_disconnect cs = true ->
  queryRunner (this s) = Some q ->
  queryRunner (this (run cs s)) = Some q.
Proof.
  induction cs as [|c cs IH]; intros s q Hcs Hq; [exact Hq|].
  cbn [run]. cbn [no_disconnect forallb] in Hcs.
  apply andb_true_iff in Hcs. destruct Hcs as (Hc & Hcs).
  apply IH; [exact Hcs|]. apply method_keeps_runner; [|exact Hq].
  intros ->. discriminate.
Qed.

(** X1: [createQueryRunner] makes no call on any collaborator and always
    returns; the runner it returns is the one every later call returns,
    whatever the replication mode and whatever other methods were called in
    between, as long as [disconnect] was not, and those later calls leave the
    driver as it is. *)
Theorem createQueryRunner_returns_cached_runner s mode q s1 :
  createQueryRunner mode s = (Ok q, s1) ->
  trace (world s1) = trace (world s)
  /\ forall cs mode',
       no_disconnect cs = true ->
       createQueryRunner mode' (run cs s1) = (Ok q, run cs s1).
Proof.
  rewrite createQueryRunner_eq. intros H.
  assert (Hq : queryRunner (this s1) = Some q /\ trace (world s1) = trace (world s)).
  { destruct (queryRunner (this s)) as [q0|] eqn:Hq0.
    - injection H as <- <-. auto.
    - cbv zeta in H. injection H as <- <-. auto. }
  destruct Hq as (Hq & Htr). split; [exact Htr|].
  intros cs mode' Hcs. rewrite createQueryRunner_eq.
  now rewrite (run_keeps_runner cs s1 q Hcs Hq).
Qed.

Lemma runner_allocated_step c s :
  well_formed s -> runner_allocated s -> runner_allocated (snd (method c s)).
Proof.
  intros Hwf Hr. unfold runner_allocated in *.
  destruct c as [| | |mode|t sc db]; cbn [method].
  - destruct Hwf as ((b & Hb) & _).
    destruct (connect_spec s b Hb) as (-> & _).
    destruct (connect_this s) as [->|(h & ->)]; exact Hr.
  - unfold afterConnect.
    destruct (attachDatabases_spec s) as (-> & _ & _ & -> & _). exact Hr.
  - rewrite disconnect_eq. cbv zeta.
    destruct (databaseConnection (this s)); [destruct (env _ _)|];
      simpl; discriminate.
  - rewrite (proj1 (forget_eq _ _)), createQueryRunner_eq.
    destruct (queryRunner (this s)) eqn:Hq.
    + simpl. rewrite Hq. exact Hr.
    + simpl. intros id [= <-]. lia.
  - rewrite (proj1 (forget_eq _ _)).
    destruct (buildTableName_frame t sc db s) as (-> & _ & _ & -> & _).
    exact Hr.
Qed.

Lemma reachable_runner_allocated s : reachable s -> runner_allocated s.
Proof.
  intros (conn & w & d & w' & cs & Hc & ->).
  pose proof (well_formed_constructed _ _ _ _ Hc) as Hwf.
  assert (H0 : runner_allocated (mkState d w')).
  { rewrite constructor_eq in Hc. cbv zeta in Hc. unfold runner_allocated.
    destruct (opt_driver _); [|destruct (env _ _)]; inversion Hc; subst;
      simpl; discriminate. }
  revert Hwf H0. generalize (mkState d w').
  induction cs as [|c cs IH]; intros s Hwf H0; [exact H0|].
  cbn [run]. apply IH.
  - now apply well_formed_step.
  - now apply runner_allocated_step.
Qed.

(** X2: after [disconnect], whether it returned or threw, the next
    [createQueryRunner] constructs a new runner, which is not the one the
    driver cached before, and caches it. *)
Theorem createQueryRunner_after_disconnect_is_new s mode old :
  reachable s ->
  queryRunner (this s) = Some old ->
  exists new,
    createQueryRunner mode (snd (disconnect s))
      = (Ok new,
         snd (createQueryRunner mode (snd (disconnect s))))
    /\ new <> old
    /\ queryRunner (this (snd (createQueryRunner mode (snd (disconnect s)))))
       = Some new.
Proof.
  intros Hreach Hold.
  pose proof (reachable_runner_allocated s Hreach) as Hr.
  destruct old as [id]. specialize (Hr id Hold).
  exists (BetterSqlite3QueryRunner (nextObject (world s))).
  rewrite createQueryRunner_eq, disconnect_eq. cbv zeta.
  destruct (databaseConnection (this s)); [destruct (env _ _)|]; simpl;
    (split; [reflexivity|]); (split; [|reflexivity]); intros [= H]; lia.
Qed.


(** *** Table names and the registry *)

(** X3: [buildTableName] makes no call on any collaborator and opens or
    closes nothing: it leaves the world and every field of the driver but
    the registry as they are, in the registry it leaves the entry of every
    other reference as it is, and when it throws it has changed nothing. *)
Theorem buildTableName_touches_one_registry_entry s tableName schema db :
  let s' := snd (buildTableName tableName schema db s) in
  world s' = world s
  /\ connection (this s') = connection (this s)
  /\ options (this s') = options (this s)
  /\ database (this s') = database (this s)
  /\ sqlite (this s') = sqlite (this s)
  /\ databaseConnection (this s') = databaseConnection (this s)
  /\ queryRunner (this s') = queryRunner (this s)
  /\ (forall k,
        k <> default "" db ->
        JsObject.get (attachedDatabases (this s')) k
          = JsObject.get (attachedDatabases (this s)) k)
  /\ (is_ok (fst (buildTableName tableName schema db s)) = false -> s' = s).
Proof.
  cbv zeta. rewrite buildTableName_eq.
  destruct (negb (Js.truthy db)); [cbn; auto 10|]. cbv zeta.
  destruct (Js.truthy _); [cbn; auto 10|].
  destruct (String.eqb _ _); [cbn; auto 10|].
  destruct (resolve _ _); [|cbn; auto 10].
  unfold with_this. cbn. repeat (split; [reflexivity|]). split.
  - intros k Hk. apply get_set_other. congruence.
  - discriminate.
Qed.

Lemma resolve_absolute o r : isAbsolute r = true -> resolve o r = Ok r.
Proof. intros H. unfold resolve. now rewrite H. Qed.

(** What [buildTableName] returns and stores for a reference that resolves,
    in a reachable state. *)
Lemma buildTableName_resolved s tableName schema r a :
  well_formed s ->
  r <> "" -> r <> opt_database (options (this s)) ->
  resolve (options (this s)) r = Ok a ->
  fst (buildTableName tableName schema (Some r) s)
    = Ok (filepathToName r ++ "." ++ tableName)%string
  /\ JsObject.get
       (attachedDatabases
          (this (snd (buildTableName tableName schema (Some r) s)))) r
     = Some (mkAttached a r (filepathToName r)).
Proof.
  intros Hwf Hr Hprim Hres.
  rewrite buildTableName_eq, (truthy_nonempty r Hr).
  cbv zeta. unfold default. cbn [negb].
  apply String.eqb_neq in Hprim.
  destruct (JsObject.get (attachedDatabases (this s)) r) as [e|] eqn:He.
  - destruct (registered_entry s r e Hwf He) as (a' & Ha' & ->).
    assert (a' = a) as -> by congruence.
    cbn [option_map attachHandle].
    destruct (Js.truthy _); [cbn; auto|].
    rewrite Hprim, Hres. cbn. split; [reflexivity|apply get_set_same].
  - cbn [option_map]. unfold Js.truthy at 1. rewrite Hprim, Hres. cbn.
    split; [reflexivity|apply get_set_same].
Qed.

(** X4: an absolute reference other than the primary one is stored as it
    was given, as absolute path and as relative path alike, and
    [buildTableName] does not fail on it, with or without a
    [baseDirectory]. *)
Theorem absolute_reference_stored_as_given s tableName schema r :
  reachable s ->
  isAbsolute r = true ->
  r <> "" -> r <> opt_database (options (this s)) ->
  fst (buildTableName tableName schema (Some r) s)
    = Ok (filepathToName r ++ "." ++ tableName)%string
  /\ JsObject.get
       (attachedDatabases
          (this (snd (buildTableName tableName schema (Some r) s)))) r
     = Some (mkAttached r r (filepathToName r)).
Proof.
  intros Hreach Habs Hr Hprim. apply reachable_well_formed in Hreach.
  apply buildTableName_resolved; auto. now apply resolve_absolute.
Qed.

(** X6: in a reachable state, when [buildTableName] returns for a reference
    that is not empty and not the primary one, what it returns is
    [filepathToName] of the reference, a dot and the identifier, and the
    registry lookup for the reference then gives that handle. *)
Theorem buildTableName_qualifies_with_filepathToName
    s tableName schema r q s1 :
  reachable s ->
  r <> "" -> r <> opt_database (options (this s)) ->
  buildTableName tableName schema (Some r) s = (Ok q, s1) ->
  q = (filepathToName r ++ "." ++ tableName)%string
  /\ getAttachedDatabaseHandleByRelativePath r s1
     = (Ok (Some (filepathToName r)), s1).
Proof.
  intros Hreach Hr Hprim H. apply reachable_well_formed in Hreach.
  assert (Hres : exists a, resolve (options (this s)) r = Ok a).
  { rewrite buildTableName_eq, (truthy_nonempty r Hr) in H.
    cbv zeta in H. unfold default in H. cbn [negb] in H.
    destruct (JsObject.get (attachedDatabases (this s)) r) as [e|] eqn:He.
    - destruct (registered_entry s r e Hreach He) as (a & Ha & _). eauto.
    - cbn [option_map] in H. unfold Js.truthy at 1 in H.
      apply String.eqb_neq in Hprim. rewrite Hprim in H.
      destruct (resolve _ r) as [a|err]; [eauto|discriminate]. }
  destruct Hres as (a & Hres).
  destruct (buildTableName_resolved s tableName schema r a Hreach Hr Hprim Hres)
    as (Hq & Hget).
  rewrite H in Hq, Hget. cbn [fst snd] in Hq, Hget.
  split; [congruence|].
  unfold getAttachedDatabaseHandleByRelativePath, bind, read, ret.
  now rewrite Hget.
Qed.

Lemma length_set {V} (o : JsObject.t V) k v :
  length o <= length (JsObject.set o k v).
Proof.
  induction o as [|[k' v'] o IH]; simpl; [lia|].
  destruct (String.eqb k k'); simpl; lia.
Qed.

Lemma method_keeps_entries c s k e :
  well_formed s ->
  JsObject.get (attachedDatabases (this s)) k = Some e ->
  JsObject.get (attachedDatabases (this (snd (method c s)))) k = Some e
  /\ length (attachedDatabases (this s))
     <= length (attachedDatabases (this (snd (method c s)))).
Proof.
  intros Hwf Hk. destruct (method_registry c s) as (_ & Hreg).
  destruct Hreg as [->|(t & sc & db & ->)]; [auto|].
  cbn [method]. rewrite (proj1 (forget_eq _ _)), buildTableName_eq.
  destruct (negb (Js.truthy db)); [auto|]. cbv zeta.
  destruct (Js.truthy _); [auto|].
  destruct (String.eqb _ _); [auto|].
  destruct (resolve _ _) as [a|err] eqn:Hres; [|auto].
  unfold with_this. cbn. split; [|apply length_set].
  destruct (string_dec (default "" db) k) as [Heq|Hne].
  - rewrite Heq in *. rewrite get_set_same.
    destruct (registered_entry s k e Hwf Hk) as (a' & Ha' & ->). congruence.
  - now rewrite get_set_other.
Qed.

Lemma run_keeps_entries cs : forall s k e,
  well_formed s ->
  JsObject.get (attachedDatabases (this s)) k = Some e ->
  JsObject.get (attachedDatabases (this (run cs s))) k = Some e
  /\ length (attachedDatabases (this s))
     <= length (attachedDatabases (this (run cs s))).
Proof.
  induction cs as [|c cs IH]; intros s k e Hwf Hk; [auto|].
  cbn [run]. destruct (method_keeps_entries c s k e Hwf Hk) as (Hk' & Hl).
  destruct (IH _ k e (well_formed_step c s Hwf) Hk') as (Hk'' & Hl').
  split; [exact Hk''|lia].
Qed.

(** X5: a registry entry, once there, stays as it is: no call on the driver,
    [disconnect] included, removes or changes it, and the registry never gets
    shorter. *)
Theorem registry_entries_are_permanent s k e cs :
  reachable s ->
  JsObject.get (attachedDatabases (this s)) k = Some e ->
  JsObject.get (attachedDatabases (this (run cs s))) k = Some e
  /\ length (attachedDatabases (this s))
     <= length (attachedDatabases (this (run cs s))).
Proof.
  intros Hreach. apply run_keeps_entries. now apply reachable_well_formed.
Qed.

(** *** Acquiring the connection *)

(** What a failed [createDatabaseConnection] leaves behind. *)
Lemma createDatabaseConnection_failure s b :
  sqlite (this s) = Some b ->
  forall e,
    fst (createDatabaseConnection s) = Throw e ->
    exists t0 ev,
      trace (world (snd (createDatabaseConnection s))) = t0 ++ [ev]
      /\ env t0 ev = Some e
      /\ openHandles (world (snd (createDatabaseConnection s)))
         = handles_after_failure ev (nextHandle (world s))
             (openHandles (world s)).
Proof.
  intros Hb. unfold createDatabaseConnection, createDatabaseDirectory,
    call_sqlite.
  run_monad.
  repeat (first [rewrite Hb | branch]; simpl);
    intros e' He'; try discriminate; injection He' as <-;
    eexists _, _; (split; [reflexivity|]); (split; [eassumption|reflexivity]).
Qed.

Lemma connection_calls_mkdir d b h dir :
  In (fs_mkdir_recursive dir) (connection_calls d b h) ->
  dir = path.dirname (opt_database (options d)).
Proof.
  unfold connection_calls. intros H.
  repeat (apply in_app_or in H; destruct H as [H|H]).
  - destruct (String.eqb _ _); [destruct H|].
    destruct H as [[= <-]|[]]. reflexivity.
  - destruct H as [H|[]]. discriminate.
  - destruct (Js.truthy _); [|destruct H]. destruct H as [H|[]]. discriminate.
  - destruct (opt_prepareDatabase _); [|destruct H].
    destruct H as [H|[]]. discriminate.
  - destruct H as [H|[]]. discriminate.
  - destruct (default false _); [|destruct H]. destruct H as [H|[]].
    discriminate.
Qed.

Lemma In_foreign_keys d b h :
  In (db_exec h "PRAGMA foreign_keys = ON") (connection_calls d b h).
Proof.
  unfold connection_calls.
  do 4 (apply in_or_app; right). apply in_or_app. left. now left.
Qed.

(** X8: [createDatabaseConnection] touches no handle but the one it opens:
    it closes nothing, every handle that was open stays open, and the
    statements it executes and the hook it calls are on the new handle; when
    it returns, the handle it returns is not the one the driver held, and the
    pragma that turns foreign keys on has been executed on it. *)
Theorem createDatabaseConnection_touches_new_handle_only s :
  reachable s ->
  exists done,
    trace (world (snd (createDatabaseConnection s))) = trace (world s) ++ done
    /\ (forall h, ~ In (db_close h) done)
    /\ (forall h sql, In (db_exec h sql) done -> h = nextHandle (world s))
    /\ (forall f h,
          In (prepareDatabase_call f h) done -> h = nextHandle (world s))
    /\ (forall h,
          In h (openHandles (world s)) ->
          In h (openHandles (world (snd (createDatabaseConnection s)))))
    /\ (forall h,
          fst (createDatabaseConnection s) = Ok h ->
          h = nextHandle (world s)
          /\ databaseConnection (this s) <> Some h
          /\ In h (openHandles (world (snd (createDatabaseConnection s))))
          /\ In (db_exec h "PRAGMA foreign_keys = ON") done).
Proof.
  intros Hreach. apply reachable_well_formed in Hreach.
  destruct Hreach as ((b & Hb) & Hh & _).
  pose proof (createDatabaseConnection_spec s b Hb) as H. cbv zeta in H.
  destruct H as (_ & _ & done & Htr & Hseg & H).
  exists done. split; [exact Htr|].
  assert (K : forall ev, In ev done ->
    (exists dir, ev = fs_mkdir_recursive dir
                 /\ String.eqb (opt_database (options (this s))) ":memory:"
                    = false)
    \/ (exists db o, ev = sqlite_open b db o)
    \/ (exists sql, ev = db_exec (nextHandle (world s)) sql)
    \/ (exists f, ev = prepareDatabase_call f (nextHandle (world s)))).
  { intros ev Hin. eapply connection_calls_kinds, initial_segment_In; eauto. }
  split; [|split; [|split; [|split]]].
  - intros h Hin.
    destruct (K _ Hin) as [(? & ? & _)|[(? & ? & ?)|[(? & ?)|(? & ?)]]];
      discriminate.
  - intros h sql Hin.
    destruct (K _ Hin) as [(? & ? & _)|[(? & ? & ?)|[(? & ?)|(? & ?)]]];
      congruence.
  - intros f h Hin.
    destruct (K _ Hin) as [(? & ? & _)|[(? & ? & ?)|[(? & ?)|(? & ?)]]];
      congruence.
  - intros h Hin. destruct (fst (createDatabaseConnection s)).
    + destruct H as (_ & _ & -> & _). now right.
    + destruct H as [[-> _]|[-> _]]; [exact Hin|now right].
  - intros h Hok. rewrite Hok in H. destruct H as (-> & -> & -> & _).
    split; [reflexivity|]. split; [|split].
    + intros Hc. specialize (Hh _ Hc). lia.
    + now left.
    + apply In_foreign_keys.
Qed.

(** X9: when [createDatabaseConnection] throws on a driver that has its
    binding, the error is the one the last call it made threw, unchanged, and
    nothing is undone: if that call came after the open, the handle that was
    opened is left open, and the driver does not get it. *)
Theorem createDatabaseConnection_fails_with_the_error_of_its_last_call s e :
  reachable s ->
  fst (createDatabaseConnection s) = Throw e ->
  exists t0 ev,
    trace (world (snd (createDatabaseConnection s))) = t0 ++ [ev]
    /\ env t0 ev = Some e
    /\ openHandles (world (snd (createDatabaseConnection s)))
       = handles_after_failure ev (nextHandle (world s))
           (openHandles (world s))
    /\ this (snd (createDatabaseConnection s)) = this s
    /\ databaseConnection (this s) <> Some (nextHandle (world s)).
Proof.
  intros Hreach He. apply reachable_well_formed in Hreach.
  destruct Hreach as ((b & Hb) & Hh & _).
  destruct (createDatabaseConnection_failure s b Hb e He)
    as (t0 & ev & Htr & Henv & Ho).
  exists t0, ev. repeat (split; [assumption|]).
  split; [apply createDatabaseConnection_this|].
  intros Hc. specialize (Hh _ Hc). lia.
Qed.

(** *** The attachment step *)




(** *** Paths *)

Lemma dirname_loop_range p i m :
  (path.dirname_loop p i m = -1 \/ 1 <= path.dirname_loop p i m)%Z.
Proof.
  revert m. induction i as [|i IH]; intros m; cbn [path.dirname_loop].
  - now left.
  - destruct (path.is_sep _); [destruct (negb m)|]; auto. right. lia.
Qed.

Lemma slice_from_start c rest e :
  (1 <= e)%Z ->
  exists tail, Js.slice (String c rest) 0 e = String c tail.
Proof.
  intros He. unfold Js.slice. change (Z.to_nat 0) with 0.
  rewrite Nat.sub_0_r.
  destruct (Z.to_nat e) as [|n] eqn:Hn; [lia|]. cbn. eauto.
Qed.

(** [path.dirname] never gives the empty string. *)
Lemma dirname_nonempty p : path.dirname p <> "".
Proof.
  unfold path.dirname.
  destruct (Js.len p =? 0)%Z eqn:Hlen; [discriminate|].
  destruct p as [|c rest]; [discriminate|].
  destruct (dirname_loop_range (String c rest)
              (String.length (String c rest) - 1) true) as [->|He].
  - change (-1 =? -1)%Z with true. cbv iota.
    destruct (path.is_sep _); discriminate.
  - destruct (_ =? -1)%Z eqn:Hm; [lia|].
    destruct (_ && _); [discriminate|].
    destruct (slice_from_start c rest _ He) as (tail & ->). discriminate.
Qed.

(** The directory of a path that starts with a slash starts with a slash. *)
Lemma dirname_absolute p :
  starts_with_slash p = true -> starts_with_slash (path.dirname p) = true.
Proof.
  destruct p as [|c rest]; [discriminate|]. cbn [starts_with_slash].
  intros Hc. unfold path.dirname.
  change (Js.len (String c rest) =? 0)%Z with false. cbv iota.
  assert (Hroot : path.is_sep (Js.charCodeAt (String c rest) 0) = true)
    by exact Hc.
  rewrite Hroot.
  destruct (dirname_loop_range (String c rest)
              (String.length (String c rest) - 1) true) as [->|He].
  - reflexivity.
  - destruct (_ =? -1)%Z eqn:Hm; [lia|].
    destruct (_ && _); [reflexivity|].
    destruct (slice_from_start c rest _ He) as (tail & ->). exact Hc.
Qed.

Lemma len_nonempty c rest : (Js.len (String c rest) =? 0)%Z = false.
Proof. unfold Js.len. apply Z.eqb_neq. cbn [String.length]. lia. Qed.

Lemma normalize_absolute p :
  starts_with_slash p = true -> starts_with_slash (path.normalize p) = true.
Proof.
  destruct p as [|c rest]; [discriminate|]. cbn [starts_with_slash].
  intros Hc. unfold path.normalize. rewrite len_nonempty.
  assert (Hroot : path.is_sep (Js.charCodeAt (String c rest) 0) = true)
    by exact Hc.
  rewrite Hroot. destruct (_ =? 0)%Z; reflexivity.
Qed.

(** Joining two paths that are not empty is normalizing them with a slash in
    between. *)
Lemma join_nonempty a b :
  a <> "" -> b <> "" ->
  path.join [Some a; Some b] = Ok (path.normalize (a ++ "/" ++ b)%string).
Proof.
  intros Ha Hb. destruct a as [|ca a]; [contradiction|].
  destruct b as [|cb b]; [contradiction|].
  unfold path.join, path.join_loop.
  assert (H : forall c s, (0 <? Js.len (String c s))%Z = true).
  { intros c s. unfold Js.len. apply Z.ltb_lt. cbn [String.length]. lia. }
  now rewrite !H.
Qed.

Lemma append_starts_with_slash a b :
  starts_with_slash a = true -> starts_with_slash (a ++ b)%string = true.
Proof. destruct a; [discriminate|]. auto. Qed.

(** X11: when the primary database path starts with a slash, the absolute
    path [buildTableName] stores for a relative reference is the normalized
    form of the primary database's directory, a slash and the reference, and
    it starts with a slash. *)
Theorem relative_reference_stored_below_root s tableName schema r :
  reachable s ->
  starts_with_slash (opt_database (options (this s))) = true ->
  isAbsolute (opt_database (options (this s))) = true ->
  isAbsolute r = false ->
  r <> "" -> r <> opt_database (options (this s)) ->
  let a :=
    path.normalize
      (path.dirname (opt_database (options (this s))) ++ "/" ++ r)%string in
  JsObject.get
    (attachedDatabases
       (this (snd (buildTableName tableName schema (Some r) s)))) r
    = Some (mkAttached a r (filepathToName r))
  /\ starts_with_slash a = true.
Proof.
  intros Hreach Hslash Habs Hrel Hr Hprim a.
  apply reachable_well_formed in Hreach.
  assert (Hres : resolve (options (this s)) r = Ok a).
  { unfold resolve, mainDatabasePath. rewrite Hrel, Habs.
    apply join_nonempty; [apply dirname_nonempty|exact Hr]. }
  split.
  - now apply buildTableName_resolved.
  - subst a. apply normalize_absolute, append_starts_with_slash.
    now apply dirname_absolute.
Qed.

(** *** Directories *)

Lemma method_mkdir_nonempty c s :
  well_formed s ->
  exists done,
    trace (world (snd (method c s))) = trace (world s) ++ done
    /\ forall dir, In (fs_mkdir_recursive dir) done -> dir <> "".
Proof.
  intros Hwf. destruct c as [| | |mode|t sc db]; cbn [method].
  - destruct Hwf as ((b & Hb) & _).
    pose proof (connect_spec s b Hb) as H. cbv zeta in H.
    destruct H as (_ & done & Htr & Hseg & _).
    exists done. split; [exact Htr|]. intros dir Hin.
    apply (initial_segment_In _ _ _ Hseg), connection_calls_mkdir in Hin.
    subst dir. apply dirname_nonempty.
  - unfold afterConnect.
    destruct (attachDatabases_spec s) as (_ & _ & _ & _ & done & Htr & Hp).
    exists done. split; [exact Htr|]. intros dir Hin.
    apply (initial_segment_In _ _ _ (attach_progress_initial_segment _ _ _ Hp)),
      attachment_calls_kinds in Hin.
    destruct Hin as (e & _ & [[= ->]|H]); [apply dirname_nonempty|discriminate].
  - rewrite disconnect_eq. cbv zeta.
    destruct (databaseConnection (this s)) as [h|].
    + exists [db_close h]. split; [now destruct (env _ _)|].
      intros dir [H|[]]. discriminate.
    + exists []. split; [simpl; now rewrite app_nil_r|intros dir []].
  - rewrite (proj1 (forget_eq _ _)), createQueryRunner_eq.
    exists []. split; [|intros dir []].
    destruct (queryRunner (this s)); simpl; now rewrite app_nil_r.
  - rewrite (proj1 (forget_eq _ _)).
    destruct (buildTableName_frame t sc db s) as (-> & _).
    exists []. split; [now rewrite app_nil_r|intros dir []].
Qed.

(** X12: the driver never asks for a directory with an empty name to be
    created: in every call of [fs.mkdir] it makes, in any sequence of calls,
    the path is not the empty string (for a database in the working
    directory it is a dot). *)
Theorem mkdir_path_is_never_empty s cs :
  reachable s ->
  exists done,
    trace (world (run cs s)) = trace (world s) ++ done
    /\ forall dir, In (fs_mkdir_recursive dir) done -> dir <> "".
Proof.
  intros Hreach. apply reachable_well_formed in Hreach.
  revert s Hreach. induction cs as [|c cs IH]; intros s Hwf.
  - exists []. split; [simpl; now rewrite app_nil_r|intros dir []].
  - cbn [run].
    destruct (method_mkdir_nonempty c s Hwf) as (d1 & H1 & N1).
    destruct (IH _ (well_formed_step c s Hwf)) as (d2 & H2 & N2).
    exists (d1 ++ d2). split; [now rewrite H2, H1, app_assoc|].
    intros dir Hin. apply in_app_or in Hin.
    destruct Hin as [Hin|Hin]; [exact (N1 dir Hin)|exact (N2 dir Hin)].
Qed.


(** *** From the table name to the attach statement *)

(** X13: the handle in front of a table name is the handle the database is
    attached under: once [buildTableName] has returned for a reference that
    is not empty and not the primary one, every later attachment step that
    succeeds, whatever was called in between, creates the directory of the
    path the reference resolves to and then attaches that path under
    [filepathToName] of the reference, which is the prefix of the table
    name. *)
Theorem table_name_prefix_is_attach_handle
    s tableName schema r q s1 cs :
  reachable s ->
  r <> "" -> r <> opt_database (options (this s)) ->
  buildTableName tableName schema (Some r) s = (Ok q, s1) ->
  is_ok (fst (afterConnect (run cs s1))) = true ->
  exists a before after,
    resolve (options (this s)) r = Ok a
    /\ q = (filepathToName r ++ "." ++ tableName)%string
    /\ trace (world (snd (afterConnect (run cs s1))))
       = trace (world (run cs s1))
         ++ before
         ++ [fs_mkdir_recursive (path.dirname a);
             connection_query
               (ATTACH_statement (mkAttached a r (filepathToName r)))]
         ++ after.
Proof.
  intros Hreach Hr Hprim H Hok. apply reachable_well_formed in Hreach.
  assert (Hres : exists a, resolve (options (this s)) r = Ok a).
  { rewrite buildTableName_eq, (truthy_nonempty r Hr) in H.
    cbv zeta in H. unfold default in H. cbn [negb] in H.
    destruct (JsObject.get (attachedDatabases (this s)) r) as [e|] eqn:He.
    - destruct (registered_entry s r e Hreach He) as (a & Ha & _). eauto.
    - cbn [option_map] in H. unfold Js.truthy at 1 in H.
      apply String.eqb_neq in Hprim. rewrite Hprim in H.
      destruct (resolve _ r) as [a|err]; [eauto|discriminate]. }
  destruct Hres as (a & Hres).
  destruct (buildTableName_resolved s tableName schema r a Hreach Hr Hprim Hres)
    as (Hq & Hget).
  pose proof (well_formed_buildTableName tableName schema (Some r) s Hreach)
    as Hwf1.
  rewrite H in Hq, Hget, Hwf1. cbn [fst snd] in Hq, Hget, Hwf1.
  destruct (run_keeps_entries cs s1 r _ Hwf1 Hget) as (Hget' & _).
  unfold afterConnect in *.
  destruct (attachDatabases_spec (run cs s1))
    as (_ & _ & _ & _ & done & Htr & Hp).
  rewrite Hok in Hp. apply attach_progress_ok in Hp.
  apply get_In_values, in_split in Hget'. destruct Hget' as (l1 & l2 & Hv).
  exists a, (attachment_calls l1), (attachment_calls l2).
  split; [exact Hres|]. split; [congruence|].
  rewrite Htr, Hp, Hv. unfold attachment_calls. rewrite flat_map_app.
  reflexivity.
Qed.


(** X14: when the primary database path is relative and a [baseDirectory] is
    configured, the absolute path [buildTableName] stores for a relative
    reference is the normalized form of a slash and the reference after the
    directory of the primary database, taken inside the [baseDirectory]; it
    starts with a slash when the [baseDirectory] does. *)
Theorem relative_reference_stored_below_baseDirectory
    s tableName schema r base :
  reachable s ->
  isAbsolute (opt_database (options (this s))) = false ->
  opt_baseDirectory (options (this s)) = Some base ->
  base <> "" -> opt_database (options (this s)) <> "" ->
  isAbsolute r = false ->
  r <> "" -> r <> opt_database (options (this s)) ->
  let main :=
    path.dirname
      (path.normalize
         (base ++ "/" ++ opt_database (options (this s)))%string) in
  let a := path.normalize (main ++ "/" ++ r)%string in
  getMainDatabasePath s = (Ok main, s)
  /\ JsObject.get
       (attachedDatabases
          (this (snd (buildTableName tableName schema (Some r) s)))) r
     = Some (mkAttached a r (filepathToName r))
  /\ (starts_with_slash base = true -> starts_with_slash a = true).
Proof.
  intros Hreach Hrelp Hbase Hb Hdb Hrel Hr Hprim main a.
  apply reachable_well_formed in Hreach.
  assert (Hmain : mainDatabasePath (options (this s)) = Ok main).
  { unfold mainDatabasePath. rewrite Hrelp, Hbase.
    now rewrite (join_nonempty base _ Hb Hdb). }
  assert (Hres : resolve (options (this s)) r = Ok a).
  { unfold resolve. rewrite Hrel, Hmain.
    apply join_nonempty; [apply dirname_nonempty|exact Hr]. }
  split; [now rewrite getMainDatabasePath_eq, Hmain|]. split.
  - now apply buildTableName_resolved.
  - intros Hslash. subst a main.
    apply normalize_absolute, append_starts_with_slash, dirname_absolute,
      normalize_absolute, append_starts_with_slash.
    exact Hslash.
Qed.

End BetterSqlite3Driver.

(* ===================================================================== *)
(** ** The properties at work on examples *)
(* ===================================================================== *)

Local Open Scope list_scope.

Local Abbreviation build := (buildTableName filepathToName_example isAbsolute_model).
Local Abbreviation calls := (run env_ok filepathToName_example isAbsolute_model).
Local Abbreviation history :=
  (outcomes env_ok filepathToName_example isAbsolute_model).
Local Abbreviation reachable_ok :=
  (reachable env_ok filepathToName_example isAbsolute_model).

(** The example states are states of constructed drivers. *)
Lemma example_state_constructed db :
  constructor env_ok (example_connection db) initial_world
    = (Ok (example_driver db), initial_world).
Proof. reflexivity. Qed.

(** C1 (counterexample): a driver that was never connected holds no handle,
    and [disconnect] fails with a [TypeError], which is not the
    [InvalidConnection] error; and where the binding lets a closed handle be
    closed again, a second [disconnect] in succession does not fail at all,
    although no handle is open. *)
Lemma disconnect_without_handle_is_not_InvalidConnection :
  constructor env_ok (example_connection "/data/main.db") initial_world
    = (Ok (this (example_state "/data/main.db")),
       world (example_state "/data/main.db"))
  /\ databaseConnection (this (example_state "/data/main.db")) = None
  /\ openHandles (world (example_state "/data/main.db")) = []
  /\ fst (disconnect env_ok (example_state "/data/main.db"))
     = Throw (TypeError "Cannot read properties of undefined (reading 'close')")
  /\ fst (disconnect env_ok (example_state "/data/main.db"))
     <> Throw InvalidConnection
  /\ history [Call_connect; Call_disconnect] (example_state "/data/main.db")
     = [(Call_connect, true); (Call_disconnect, true)]
  /\ holds_open_handle
       (calls [Call_connect; Call_disconnect] (example_state "/data/main.db"))
     = false
  /\ fst (disconnect env_ok
            (calls [Call_connect; Call_disconnect]
               (example_state "/data/main.db")))
     = Ok tt.
Proof. vm_compute. repeat split; try reflexivity. discriminate. Qed.

(** C2 (counterexample): with primary path [/data/main.db], the reference
    [../shared/ext.db] is stored with the absolute path [/shared/ext.db], not
    [/data/shared/ext.db]. *)
Lemma parent_reference_leaves_primary_directory :
  constructor env_ok (example_connection "/data/main.db") initial_world
    = (Ok (this (example_state "/data/main.db")),
       world (example_state "/data/main.db"))
  /\ isAbsolute_model "/data/main.db" = true
  /\ isAbsolute_model "../shared/ext.db" = false
  /\ option_map attachFilepathAbsolute
       (JsObject.get
          (attachedDatabases
             (this (snd (build "post" None (Some "../shared/ext.db")
                           (example_state "/data/main.db")))))
          "../shared/ext.db")
     = Some "/shared/ext.db"
  /\ option_map attachFilepathAbsolute
       (JsObject.get
          (attachedDatabases
             (this (snd (build "post" None (Some "../shared/ext.db")
                           (example_state "/data/main.db")))))
          "../shared/ext.db")
     <> Some "/data/shared/ext.db".
Proof. vm_compute. repeat split. discriminate. Qed.

(** The joining rule at work: primary [/data/main.db], reference
    [../shared/ext.db]. *)
Lemma relative_reference_joined_to_primary_directory_witness :
  reachable_ok (example_state "/data/main.db")
  /\ "../shared/ext.db" <> ""
  /\ "../shared/ext.db" <> opt_database (options (this (example_state "/data/main.db")))
  /\ isAbsolute_model "../shared/ext.db" = false
  /\ mainDatabasePath isAbsolute_model
       (options (this (example_state "/data/main.db"))) = Ok "/data"
  /\ JsObject.get
       (attachedDatabases
          (this (snd (build "post" None (Some "../shared/ext.db")
                        (example_state "/data/main.db")))))
       "../shared/ext.db"
     = Some (mkAttached "/shared/ext.db" "../shared/ext.db"
               (filepathToName_example "../shared/ext.db")).
Proof.
  assert (R : reachable_ok (example_state "/data/main.db")).
  { exists (example_connection "/data/main.db"), initial_world,
      (example_driver "/data/main.db"), initial_world, [].
    split; reflexivity. }
  split; [exact R|]. split; [discriminate|]. split; [discriminate|].
  split; [reflexivity|]. split; [reflexivity|].
  destruct (relative_reference_joined_to_primary_directory
              env_ok filepathToName_example isAbsolute_model
              (example_state "/data/main.db") "post" None
              "../shared/ext.db" "/data" R)
    as (a & _ & Hget & _ & Ha);
    [discriminate|discriminate|reflexivity|reflexivity|].
  rewrite Hget, (Ha eq_refl eq_refl). reflexivity.
Defined.

(** Idempotence at work: the reference [ext.db] of a driver on
    [/data/main.db]. *)
Lemma buildTableName_idempotent_witness :
  build "post" None (Some "ext.db") (example_state "/data/main.db")
    = (Ok (filepathToName_example "ext.db" ++ ".post")%string,
       snd (build "post" None (Some "ext.db") (example_state "/data/main.db")))
  /\ exists prefix,
       (filepathToName_example "ext.db" ++ ".post")%string
         = (prefix ++ "post")%string
       /\ forall cs t,
            fst (build t None (Some "ext.db")
                   (calls cs
                      (snd (build "post" None (Some "ext.db")
                              (example_state "/data/main.db")))))
              = Ok (prefix ++ t)%string.
Proof.
  assert (H : build "post" None (Some "ext.db") (example_state "/data/main.db")
              = (Ok (filepathToName_example "ext.db" ++ ".post")%string,
                 snd (build "post" None (Some "ext.db")
                        (example_state "/data/main.db"))))
    by reflexivity.
  split; [exact H|].
  destruct (buildTableName_idempotent env_ok filepathToName_example
              isAbsolute_model _ _ _ _ _ _ H) as (prefix & Hq & _ & Hfix).
  exists prefix. split; [exact Hq|].
  intros cs t. destruct (Hfix cs t None) as (E & _). now rewrite E.
Defined.

(** The primary reference of a driver on [/data/main.db] stays unqualified. *)
Lemma buildTableName_unqualified_for_primary_witness :
  reachable_ok (example_state "/data/main.db")
  /\ (Js.truthy (Some "/data/main.db") = false
      \/ Some "/data/main.db"
         = Some (opt_database (options (this (example_state "/data/main.db")))))
  /\ build "post" None (Some "/data/main.db") (example_state "/data/main.db")
     = (Ok "post", example_state "/data/main.db").
Proof.
  assert (R : reachable_ok (example_state "/data/main.db")).
  { exists (example_connection "/data/main.db"), initial_world,
      (example_driver "/data/main.db"), initial_world, [].
    split; reflexivity. }
  split; [exact R|]. split; [right; reflexivity|].
  exact (proj1 (buildTableName_unqualified_for_primary env_ok
                  filepathToName_example isAbsolute_model
                  (example_state "/data/main.db") "post" None
                  (Some "/data/main.db") R (or_intror eq_refl))).
Defined.

(** C6 (counterexample): after a connect and a disconnect that both
    succeeded, the driver still holds the handle the connect gave it. *)
Lemma handle_kept_after_disconnect :
  constructor env_ok (example_connection "/data/main.db") initial_world
    = (Ok (this (example_state "/data/main.db")),
       world (example_state "/data/main.db"))
  /\ history [Call_connect; Call_disconnect] (example_state "/data/main.db")
    = [(Call_connect, true); (Call_disconnect, true)]
  /\ databaseConnection
       (this (calls [Call_connect; Call_disconnect]
                (example_state "/data/main.db")))
     = Some 0
  /\ databaseConnection
       (this (calls [Call_connect; Call_disconnect]
                (example_state "/data/main.db")))
     <> None.
Proof. vm_compute. repeat split. discriminate. Qed.

(** The handle invariant at work: connect, disconnect twice, connect. *)
Lemma holds_open_handle_iff_connected_witness :
  constructor env_ok (example_connection "/data/main.db") initial_world
    = (Ok (example_driver "/data/main.db"), initial_world)
  /\ holds_open_handle
       (calls [Call_connect; Call_disconnect; Call_disconnect; Call_connect]
          (example_state "/data/main.db"))
     = connected_after
         (history [Call_connect; Call_disconnect; Call_disconnect; Call_connect]
            (example_state "/data/main.db")) false.
Proof.
  split; [reflexivity|].
  exact (proj1 (holds_open_handle_iff_connected env_ok filepathToName_example
                  isAbsolute_model (example_connection "/data/main.db")
                  initial_world (example_driver "/data/main.db") initial_world
                  [Call_connect; Call_disconnect; Call_disconnect; Call_connect]
                  eq_refl)).
Defined.


(** Construction with the binding given as an override. *)
Lemma dependency_acquired_at_construction_witness :
  opt_driver (ds_options (example_connection "/data/main.db"))
    = Some (DriverOverride 0)
  /\ exists d,
       constructor env_ok (example_connection "/data/main.db") initial_world
         = (Ok d, initial_world)
       /\ sqlite d = Some (DriverOverride 0).
Proof.
  split; [reflexivity|].
  exact (proj1 (dependency_acquired_at_construction env_ok
                  filepathToName_example isAbsolute_model
                  (example_connection "/data/main.db") initial_world)
           (DriverOverride 0) eq_refl).
Defined.

(** Primary [main.db], no [baseDirectory], reference [ext.db]. *)
Lemma buildTableName_fails_without_baseDirectory_witness :
  reachable_ok (example_state "main.db")
  /\ isAbsolute_model (opt_database (options (this (example_state "main.db"))))
     = false
  /\ opt_baseDirectory (options (this (example_state "main.db"))) = None
  /\ "ext.db" <> ""
  /\ "ext.db" <> opt_database (options (this (example_state "main.db")))
  /\ isAbsolute_model "ext.db" = false
  /\ build "post" None (Some "ext.db") (example_state "main.db")
     = (Throw path.ERR_INVALID_ARG_TYPE, example_state "main.db").
Proof.
  assert (R : reachable_ok (example_state "main.db")).
  { exists (example_connection "main.db"), initial_world,
      (example_driver "main.db"), initial_world, [].
    split; reflexivity. }
  split; [exact R|]. split; [reflexivity|]. split; [reflexivity|].
  split; [discriminate|]. split; [discriminate|]. split; [reflexivity|].
  apply (proj1 (buildTableName_fails_without_baseDirectory env_ok
                  filepathToName_example isAbsolute_model
                  (example_state "main.db") "post" None R));
    [reflexivity|reflexivity|discriminate|discriminate|reflexivity].
Defined.

(** *** The claims revisited on fuller examples *)

(** The order of calls at work, on a driver with a key, a hook, write-ahead
    logging and two registry entries: a first connect, on handle 0, and,
    after a disconnect, a reconnect, on handle 1, make the same calls in
    the same order. *)
Lemma connect_calls_in_fixed_order_witness :
  constructor env_ok (mkDataSource (example_options_full "/data/main.db"))
    initial_world
    = (Ok (this (example_state_full "/data/main.db")),
       world (example_state_full "/data/main.db"))
  /\ sqlite
       (this (calls [Call_buildTableName "post" None (Some "ext.db");
                     Call_buildTableName "user" None
                       (Some "/var/db/other.db")]
                (example_state_full "/data/main.db")))
     = Some (DriverOverride 0)
  /\ trace
       (world
          (snd (initialize env_ok
                  (calls [Call_buildTableName "post" None (Some "ext.db");
                          Call_buildTableName "user" None
                            (Some "/var/db/other.db")]
                     (example_state_full "/data/main.db")))))
     = [fs_mkdir_recursive "/data";
        sqlite_open (DriverOverride 0) "/data/main.db"
          (mkOpenOptions false false 5000%Z None None);
        db_exec 0 ("PRAGMA key = " ++ Js.JSON_stringify "secret")%string;
        prepareDatabase_call 7 0;
        db_exec 0 "PRAGMA foreign_keys = ON";
        db_exec 0 "PRAGMA journal_mode = WAL";
        fs_mkdir_recursive "/data";
        connection_query
          (ATTACH_statement
             (mkAttached "/data/ext.db" "ext.db"
                (filepathToName_example "ext.db")));
        fs_mkdir_recursive "/var/db";
        connection_query
          (ATTACH_statement
             (mkAttached "/var/db/other.db" "/var/db/other.db"
                (filepathToName_example "/var/db/other.db")))]
  /\ history [Call_buildTableName "post" None (Some "ext.db");
              Call_buildTableName "user" None (Some "/var/db/other.db");
              Call_connect; Call_afterConnect; Call_disconnect]
       (example_state_full "/data/main.db")
     = [(Call_buildTableName "post" None (Some "ext.db"), true);
        (Call_buildTableName "user" None (Some "/var/db/other.db"), true);
        (Call_connect, true); (Call_afterConnect, true);
        (Call_disconnect, true)]
  /\ trace
       (world
          (snd (initialize env_ok
                  (calls [Call_buildTableName "post" None (Some "ext.db");
                          Call_buildTableName "user" None
                            (Some "/var/db/other.db");
                          Call_connect; Call_afterConnect; Call_disconnect]
                     (example_state_full "/data/main.db")))))
     = trace
         (world
            (calls [Call_buildTableName "post" None (Some "ext.db");
                    Call_buildTableName "user" None
                      (Some "/var/db/other.db");
                    Call_connect; Call_afterConnect; Call_disconnect]
               (example_state_full "/data/main.db")))
       ++ [fs_mkdir_recursive "/data";
           sqlite_open (DriverOverride 0) "/data/main.db"
             (mkOpenOptions false false 5000%Z None None);
           db_exec 1 ("PRAGMA key = " ++ Js.JSON_stringify "secret")%string;
           prepareDatabase_call 7 1;
           db_exec 1 "PRAGMA foreign_keys = ON";
           db_exec 1 "PRAGMA journal_mode = WAL";
           fs_mkdir_recursive "/data";
           connection_query
             (ATTACH_statement
                (mkAttached "/data/ext.db" "ext.db"
                   (filepathToName_example "ext.db")));
           fs_mkdir_recursive "/var/db";
           connection_query
             (ATTACH_statement
                (mkAttached "/var/db/other.db" "/var/db/other.db"
                   (filepathToName_example "/var/db/other.db")))].
Proof.
  split; [reflexivity|]. split; [reflexivity|]. split; [|split].
  - destruct (connect_calls_in_fixed_order env_ok
                (calls [Call_buildTableName "post" None (Some "ext.db");
                        Call_buildTableName "user" None
                          (Some "/var/db/other.db")]
                   (example_state_full "/data/main.db"))
                (DriverOverride 0) eq_refl)
      as (done & Htr & _ & Hok).
    rewrite Htr, (Hok eq_refl). reflexivity.
  - reflexivity.
  - destruct (connect_calls_in_fixed_order env_ok
                (calls [Call_buildTableName "post" None (Some "ext.db");
                        Call_buildTableName "user" None
                          (Some "/var/db/other.db");
                        Call_connect; Call_afterConnect; Call_disconnect]
                   (example_state_full "/data/main.db"))
                (DriverOverride 0) eq_refl)
      as (done & Htr & _ & Hok).
    rewrite Htr, (Hok eq_refl). reflexivity.
Defined.

(** C5 (counterexample): the primary store is attached to itself.  With
    primary path [/data/main.db], the reference [main.db] is not the string
    [options.database]: [buildTableName] qualifies the identifier, the
    registry gets an entry whose absolute path is the primary database
    itself, and the attachment step attaches that file to the connection
    that has it open as its primary database. *)
Lemma primary_file_attached_under_another_reference :
  constructor env_ok (example_connection "/data/main.db") initial_world
    = (Ok (this (example_state "/data/main.db")),
       world (example_state "/data/main.db"))
  /\ fst (build "post" None (Some "main.db") (example_state "/data/main.db"))
     = Ok (filepathToName_example "main.db" ++ ".post")%string
  /\ fst (build "post" None (Some "main.db") (example_state "/data/main.db"))
     <> Ok "post"%string
  /\ option_map attachFilepathAbsolute
       (JsObject.get
          (attachedDatabases
             (this (snd (build "post" None (Some "main.db")
                           (example_state "/data/main.db")))))
          "main.db")
     = Some (opt_database (options (this (example_state "/data/main.db"))))
  /\ trace
       (world
          (snd (initialize env_ok
                  (snd (build "post" None (Some "main.db")
                          (example_state "/data/main.db"))))))
     = [fs_mkdir_recursive "/data";
        sqlite_open (DriverOverride 0) "/data/main.db"
          (mkOpenOptions false false 5000%Z None None);
        db_exec 0 "PRAGMA foreign_keys = ON";
        fs_mkdir_recursive "/data";
        connection_query
          (ATTACH_statement
             (mkAttached "/data/main.db" "main.db"
                (filepathToName_example "main.db")))].
Proof. vm_compute. repeat split. discriminate. Qed.

(** *** Handles *)







(** *** The further properties on examples *)

(** The runner made on a new driver is returned again after a connect. *)
Lemma createQueryRunner_returns_cached_runner_witness :
  createQueryRunner master (example_state "/data/main.db")
    = (Ok (BetterSqlite3QueryRunner 0),
       snd (createQueryRunner master (example_state "/data/main.db")))
  /\ no_disconnect [Call_connect; Call_afterConnect] = true
  /\ createQueryRunner slave
       (calls [Call_connect; Call_afterConnect]
          (snd (createQueryRunner master (example_state "/data/main.db"))))
     = (Ok (BetterSqlite3QueryRunner 0),
        calls [Call_connect; Call_afterConnect]
          (snd (createQueryRunner master (example_state "/data/main.db")))).
Proof.
  split; [reflexivity|]. split; [reflexivity|].
  exact (proj2 (createQueryRunner_returns_cached_runner env_ok
                  filepathToName_example isAbsolute_model
                  (example_state "/data/main.db") master
                  (BetterSqlite3QueryRunner 0)
                  (snd (createQueryRunner master
                          (example_state "/data/main.db")))
                  eq_refl)
           [Call_connect; Call_afterConnect] slave eq_refl).
Defined.

(** A runner, a disconnect on a driver that was never connected, and the next
    runner. *)
Lemma createQueryRunner_after_disconnect_is_new_witness :
  reachable_ok
    (calls [Call_createQueryRunner master] (example_state "/data/main.db"))
  /\ queryRunner
       (this (calls [Call_createQueryRunner master]
                (example_state "/data/main.db")))
     = Some (BetterSqlite3QueryRunner 0)
  /\ exists new,
       fst (createQueryRunner master
              (snd (disconnect env_ok
                      (calls [Call_createQueryRunner master]
                         (example_state "/data/main.db")))))
         = Ok new
       /\ new <> BetterSqlite3QueryRunner 0.
Proof.
  assert (R : reachable_ok
                (calls [Call_createQueryRunner master]
                   (example_state "/data/main.db"))).
  { exists (example_connection "/data/main.db"), initial_world,
      (example_driver "/data/main.db"), initial_world,
      [Call_createQueryRunner master].
    split; reflexivity. }
  split; [exact R|]. split; [reflexivity|].
  destruct (createQueryRunner_after_disconnect_is_new env_ok
              filepathToName_example isAbsolute_model _ master
              (BetterSqlite3QueryRunner 0) R eq_refl)
    as (new & Hnew & Hdiff & _).
  exists new. split; [now rewrite Hnew|exact Hdiff].
Defined.

(** An absolute reference on a driver with a relative primary database and no
    [baseDirectory]. *)
Lemma absolute_reference_stored_as_given_witness :
  reachable_ok (example_state "main.db")
  /\ isAbsolute_model "/var/db/ext.db" = true
  /\ "/var/db/ext.db" <> ""
  /\ "/var/db/ext.db" <> opt_database (options (this (example_state "main.db")))
  /\ JsObject.get
       (attachedDatabases
          (this (snd (build "post" None (Some "/var/db/ext.db")
                        (example_state "main.db")))))
       "/var/db/ext.db"
     = Some (mkAttached "/var/db/ext.db" "/var/db/ext.db"
               (filepathToName_example "/var/db/ext.db")).
Proof.
  assert (R : reachable_ok (example_state "main.db")).
  { exists (example_connection "main.db"), initial_world,
      (example_driver "main.db"), initial_world, [].
    split; reflexivity. }
  split; [exact R|]. split; [reflexivity|]. split; [discriminate|].
  split; [discriminate|].
  destruct (absolute_reference_stored_as_given env_ok
              filepathToName_example isAbsolute_model
              (example_state "main.db") "post" None "/var/db/ext.db" R
              eq_refl) as (_ & H); [discriminate|discriminate|exact H].
Defined.

(** The entry of [ext.db] after a connect and a disconnect. *)
Lemma registry_entries_are_permanent_witness :
  reachable_ok
    (calls [Call_buildTableName "post" None (Some "ext.db")]
       (example_state "/data/main.db"))
  /\ JsObject.get
       (attachedDatabases
          (this (calls [Call_buildTableName "post" None (Some "ext.db")]
                   (example_state "/data/main.db"))))
       "ext.db"
     = Some (mkAttached "/data/ext.db" "ext.db"
               (filepathToName_example "ext.db"))
  /\ JsObject.get
       (attachedDatabases
          (this (calls [Call_connect; Call_disconnect]
                   (calls [Call_buildTableName "post" None (Some "ext.db")]
                      (example_state "/data/main.db")))))
       "ext.db"
     = Some (mkAttached "/data/ext.db" "ext.db"
               (filepathToName_example "ext.db")).
Proof.
  assert (R : reachable_ok
                (calls [Call_buildTableName "post" None (Some "ext.db")]
                   (example_state "/data/main.db"))).
  { exists (example_connection "/data/main.db"), initial_world,
      (example_driver "/data/main.db"), initial_world,
      [Call_buildTableName "post" None (Some "ext.db")].
    split; reflexivity. }
  split; [exact R|]. split; [reflexivity|].
  exact (proj1 (registry_entries_are_permanent env_ok filepathToName_example
                  isAbsolute_model _ "ext.db" _
                  [Call_connect; Call_disconnect] R eq_refl)).
Defined.

(** The table name for the reference [ext.db] and the lookup after it. *)
Lemma buildTableName_qualifies_with_filepathToName_witness :
  reachable_ok (example_state "/data/main.db")
  /\ "ext.db" <> ""
  /\ "ext.db" <> opt_database (options (this (example_state "/data/main.db")))
  /\ build "post" None (Some "ext.db") (example_state "/data/main.db")
     = (Ok (filepathToName_example "ext.db" ++ ".post")%string,
        snd (build "post" None (Some "ext.db") (example_state "/data/main.db")))
  /\ getAttachedDatabaseHandleByRelativePath "ext.db"
       (snd (build "post" None (Some "ext.db") (example_state "/data/main.db")))
     = (Ok (Some (filepathToName_example "ext.db")),
        snd (build "post" None (Some "ext.db") (example_state "/data/main.db"))).
Proof.
  assert (R : reachable_ok (example_state "/data/main.db")).
  { exists (example_connection "/data/main.db"), initial_world,
      (example_driver "/data/main.db"), initial_world, [].
    split; reflexivity. }
  split; [exact R|]. split; [discriminate|]. split; [discriminate|].
  split; [reflexivity|].
  destruct (buildTableName_qualifies_with_filepathToName env_ok
              filepathToName_example isAbsolute_model
              (example_state "/data/main.db") "post" None "ext.db"
              (filepathToName_example "ext.db" ++ ".post")%string
              (snd (build "post" None (Some "ext.db")
                      (example_state "/data/main.db")))
              R) as (_ & H);
    [discriminate|discriminate|reflexivity|exact H].
Defined.

(** A reconnect: the handle of the first connect stays open. *)
Lemma createDatabaseConnection_touches_new_handle_only_witness :
  reachable_ok (calls [Call_connect] (example_state "/data/main.db"))
  /\ In 0 (openHandles
             (world (calls [Call_connect] (example_state "/data/main.db"))))
  /\ In 0 (openHandles
             (world (snd (createDatabaseConnection env_ok
                            (calls [Call_connect]
                               (example_state "/data/main.db")))))).
Proof.
  assert (R : reachable_ok (calls [Call_connect] (example_state "/data/main.db"))).
  { exists (example_connection "/data/main.db"), initial_world,
      (example_driver "/data/main.db"), initial_world, [Call_connect].
    split; reflexivity. }
  split; [exact R|]. split; [now left|].
  destruct (createDatabaseConnection_touches_new_handle_only env_ok
              filepathToName_example isAbsolute_model _ R)
    as (done & _ & _ & _ & _ & Hopen & _).
  apply Hopen. now left.
Defined.

(** The pragma that turns foreign keys on fails: the handle stays open. *)
Lemma createDatabaseConnection_fails_with_the_error_of_its_last_call_witness :
  reachable env_foreign_keys_fail filepathToName_example isAbsolute_model
    (example_state "/data/main.db")
  /\ fst (createDatabaseConnection env_foreign_keys_fail
            (example_state "/data/main.db"))
     = Throw (Thrown "SqliteError")
  /\ exists t0 ev,
       trace (world (snd (createDatabaseConnection env_foreign_keys_fail
                            (example_state "/data/main.db"))))
         = t0 ++ [ev]
       /\ env_foreign_keys_fail t0 ev = Some (Thrown "SqliteError")
       /\ openHandles
            (world (snd (createDatabaseConnection env_foreign_keys_fail
                           (example_state "/data/main.db"))))
          = handles_after_failure ev 0 [].
Proof.
  assert (R : reachable env_foreign_keys_fail filepathToName_example
                isAbsolute_model (example_state "/data/main.db")).
  { exists (example_connection "/data/main.db"), initial_world,
      (example_driver "/data/main.db"), initial_world, [].
    split; reflexivity. }
  split; [exact R|]. split; [reflexivity|].
  destruct (createDatabaseConnection_fails_with_the_error_of_its_last_call
              env_foreign_keys_fail filepathToName_example isAbsolute_model
              (example_state "/data/main.db") (Thrown "SqliteError") R eq_refl)
    as (t0 & ev & Htr & Henv & Ho & _).
  exists t0, ev. auto.
Defined.


(** The reference [sub/ext.db] of a driver on [/data/main.db]. *)
Lemma relative_reference_stored_below_root_witness :
  reachable_ok (example_state "/data/main.db")
  /\ starts_with_slash
       (opt_database (options (this (example_state "/data/main.db")))) = true
  /\ isAbsolute_model
       (opt_database (options (this (example_state "/data/main.db")))) = true
  /\ isAbsolute_model "sub/ext.db" = false
  /\ "sub/ext.db" <> ""
  /\ "sub/ext.db" <> opt_database (options (this (example_state "/data/main.db")))
  /\ JsObject.get
       (attachedDatabases
          (this (snd (build "post" None (Some "sub/ext.db")
                        (example_state "/data/main.db")))))
       "sub/ext.db"
     = Some (mkAttached "/data/sub/ext.db" "sub/ext.db"
               (filepathToName_example "sub/ext.db")).
Proof.
  assert (R : reachable_ok (example_state "/data/main.db")).
  { exists (example_connection "/data/main.db"), initial_world,
      (example_driver "/data/main.db"), initial_world, [].
    split; reflexivity. }
  split; [exact R|]. split; [reflexivity|]. split; [reflexivity|].
  split; [reflexivity|]. split; [discriminate|]. split; [discriminate|].
  destruct (relative_reference_stored_below_root env_ok
              filepathToName_example isAbsolute_model
              (example_state "/data/main.db") "post" None "sub/ext.db" R
              eq_refl eq_refl eq_refl) as (H & _);
    [discriminate|discriminate|exact H].
Defined.

(** A connect on a driver whose database is in the working directory. *)
Lemma mkdir_path_is_never_empty_witness :
  reachable_ok (example_state "main.db")
  /\ exists done,
       trace (world (calls [Call_connect] (example_state "main.db")))
         = trace (world (example_state "main.db")) ++ done
       /\ forall dir, In (fs_mkdir_recursive dir) done -> dir <> "".
Proof.
  assert (R : reachable_ok (example_state "main.db")).
  { exists (example_connection "main.db"), initial_world,
      (example_driver "main.db"), initial_world, [].
    split; reflexivity. }
  split; [exact R|].
  exact (mkdir_path_is_never_empty env_ok filepathToName_example
           isAbsolute_model (example_state "main.db") [Call_connect] R).
Defined.

(** The table [post] of [ext.db], a connect, and the attachment step. *)
Lemma table_name_prefix_is_attach_handle_witness :
  reachable_ok (example_state "/data/main.db")
  /\ "ext.db" <> ""
  /\ "ext.db" <> opt_database (options (this (example_state "/data/main.db")))
  /\ build "post" None (Some "ext.db") (example_state "/data/main.db")
     = (Ok (filepathToName_example "ext.db" ++ ".post")%string,
        snd (build "post" None (Some "ext.db") (example_state "/data/main.db")))
  /\ is_ok (fst (afterConnect env_ok
                   (calls [Call_connect]
                      (snd (build "post" None (Some "ext.db")
                              (example_state "/data/main.db"))))))
     = true
  /\ exists a before after,
       resolve isAbsolute_model
         (options (this (example_state "/data/main.db"))) "ext.db" = Ok a
       /\ trace (world (snd (afterConnect env_ok
                               (calls [Call_connect]
                                  (snd (build "post" None (Some "ext.db")
                                          (example_state "/data/main.db")))))))
          = trace (world (calls [Call_connect]
                            (snd (build "post" None (Some "ext.db")
                                    (example_state "/data/main.db")))))
            ++ before
            ++ [fs_mkdir_recursive (path.dirname a);
                connection_query
                  (ATTACH_statement
                     (mkAttached a "ext.db" (filepathToName_example "ext.db")))]
            ++ after.
Proof.
  assert (R : reachable_ok (example_state "/data/main.db")).
  { exists (example_connection "/data/main.db"), initial_world,
      (example_driver "/data/main.db"), initial_world, [].
    split; reflexivity. }
  split; [exact R|]. split; [discriminate|]. split; [discriminate|].
  split; [reflexivity|]. split; [reflexivity|].
  destruct (table_name_prefix_is_attach_handle env_ok filepathToName_example
              isAbsolute_model (example_state "/data/main.db") "post" None
              "ext.db" (filepathToName_example "ext.db" ++ ".post")%string
              (snd (build "post" None (Some "ext.db")
                      (example_state "/data/main.db")))
              [Call_connect] R)
    as (a & before & after & Ha & _ & Htr);
    [discriminate|discriminate|reflexivity|reflexivity|].
  exists a, before, after. auto.
Defined.

(** A database in memory with the [baseDirectory] [/srv/app]. *)
Lemma relative_reference_stored_below_baseDirectory_witness :
  reachable_ok (example_state_in "/srv/app" ":memory:")
  /\ isAbsolute_model
       (opt_database (options (this (example_state_in "/srv/app" ":memory:"))))
     = false
  /\ opt_baseDirectory (options (this (example_state_in "/srv/app" ":memory:")))
     = Some "/srv/app"
  /\ isAbsolute_model "ext.db" = false
  /\ JsObject.get
       (attachedDatabases
          (this (snd (build "post" None (Some "ext.db")
                        (example_state_in "/srv/app" ":memory:")))))
       "ext.db"
     = Some (mkAttached "/srv/app/ext.db" "ext.db"
               (filepathToName_example "ext.db")).
Proof.
  assert (R : reachable_ok (example_state_in "/srv/app" ":memory:")).
  { exists (mkDataSource (example_options_in "/srv/app" ":memory:")),
      initial_world, (this (example_state_in "/srv/app" ":memory:")),
      initial_world, [].
    split; reflexivity. }
  split; [exact R|]. split; [reflexivity|]. split; [reflexivity|].
  split; [reflexivity|].
  destruct (relative_reference_stored_below_baseDirectory env_ok
              filepathToName_example isAbsolute_model
              (example_state_in "/srv/app" ":memory:") "post" None "ext.db"
              "/srv/app" R eq_refl eq_refl) as (_ & H & _);
    [discriminate|discriminate|reflexivity|discriminate|discriminate|exact H].
Defined.
